(** * open_ai_role_bot: bounded chat memory, prompt catalog and message chunking

    A shallow embedding of [memory.py] (the prompt catalog and the per-chat
    memory store) and of [split_message] from [main.py], with the properties
    the specification states about them.

    Python values are modelled as follows.
    - [int] is [Z] (unbounded); [//] is [Z.div], which floors like Python.
    - [str] used as a message text or a dictionary key is [string]; the text
      handed to [split_message] is a [list ascii], a sequence of characters,
      because the function works by position and length.
    - the memory document (a [dict] keyed by [str(chat_id)]) is a
      [gmap string ChatState]; the prompts dictionary, whose iteration order
      the code relies on, is an association list in insertion order.
    - module-level globals and the JSON file are fields of a [World] that every
      operation threads through a small state monad. *)

From Stdlib Require Import ZArith Ascii String List Lia.
From stdpp Require Import base option list gmap strings pretty.

Local Open Scope Z_scope.

(** ** Python list and string primitives *)

Section PySeq.
Context {A : Type}.

(** [len(l)] *)
Definition py_len (l : list A) : Z := Z.of_nat (length l).

(** The bound of a slice, clamped as Python clamps it: a negative bound
    counts from the end and stops at the start of the sequence. *)
Definition py_bound (l : list A) (k : Z) : nat :=
  Z.to_nat (if k <? 0 then Z.max 0 (py_len l + k) else k).

(** [l[k:]] *)
Definition py_slice_from (l : list A) (k : Z) : list A := drop (py_bound l k) l.

(** [l[:k]] *)
Definition py_slice_to (l : list A) (k : Z) : list A := take (py_bound l k) l.

(** [l[i]]; [None] stands for [IndexError]. *)
Definition py_index (l : list A) (i : Z) : option A :=
  if (0 <=? i) && (i <? py_len l) then l !! Z.to_nat i
  else if (- py_len l <=? i) && (i <? 0) then l !! Z.to_nat (py_len l + i)
  else None.
End PySeq.

(** ** config.py *)

Definition MAX_USER_MESSAGES : Z := 10.
Definition MAX_ASSISTANT_MESSAGES : Z := 10.

(** ** Prompts (memory.py, lines 41-56) *)

(** One entry of ["prompts"]: every key is read with [.get], so each may be
    missing. *)
Record PromptDefinition := mkPrompt {
  name : option string;
  description : option string;
  system_prompt : option string
}.

(** A [dict] whose iteration order matters: keys in insertion order. *)
Definition dict (V : Type) := list (string * V).

(** [k in d] *)
Definition dict_mem {V} (k : string) (d : dict V) : bool :=
  existsb (fun kv => String.eqb k (fst kv)) d.

(** [d.get(k, dflt)] *)
Definition dict_get {V} (k : string) (d : dict V) (dflt : V) : V :=
  match List.find (fun kv => String.eqb k (fst kv)) d with
  | Some kv => snd kv
  | None => dflt
  end.

(** [next(iter(d), dflt)] *)
Definition dict_first_key {V} (d : dict V) (dflt : string) : string :=
  match d with
  | [] => dflt
  | kv :: _ => fst kv
  end.

(** The two keys of prompts.json, and of the dictionary [load_prompts] returns;
    both are read with [.get], so each may be missing. *)
Record PromptsData := mkPromptsData {
  default_prompt : option string;
  prompts : option (dict PromptDefinition)
}.

(** The empty dictionary [{}] read as a prompts document or as an entry. *)
Definition empty_data : PromptsData := mkPromptsData None None.
Definition empty_prompt : PromptDefinition := mkPrompt None None None.

(** [_load_json(PROMPTS_JSON_PATH)] for a file that holds a JSON object
    ([Some]) and for a file that is missing or whose reading raises [OSError]
    or [json.JSONDecodeError] ([None]), the cases [_load_json] answers with
    [{}]. A file whose reading raises anything else, or whose top level is not
    an object, is not a value of this type; [_load_json] below has them. *)
Definition _load_json_prompts (file : option PromptsData) : PromptsData :=
  default empty_data file.

Definition load_prompts (file : option PromptsData) : PromptsData :=
  let data := _load_json_prompts file in
  let prompts_ := default [] (prompts data) in
  let default_ := default "assistant"%string (default_prompt data) in
  let default_ :=
    if negb (dict_mem default_ prompts_)
    then dict_first_key prompts_ "assistant"%string
    else default_ in
  mkPromptsData (Some default_) (Some prompts_).

(** The literal returned when no system prompt is found (UTF-8 bytes). *)
Definition FALLBACK_PROMPT : string := "Ты — полезный помощник."%string.

(** [x or y] on an optional string: [None] and the empty string are falsy. *)
Definition py_or (x : option string) (y : string) : string :=
  match x with
  | Some s => if String.eqb s EmptyString then y else s
  | None => y
  end.

Definition get_system_prompt (prompts_data : PromptsData) (mode_key : option string)
  : string :=
  let mode_key := py_or mode_key (default "assistant"%string (default_prompt prompts_data)) in
  let prompts_ := default [] (prompts prompts_data) in
  let mode := dict_get mode_key prompts_ (dict_get "assistant"%string prompts_ empty_prompt) in
  default FALLBACK_PROMPT (system_prompt mode).

(** ** Chat memory (memory.py, lines 63-169) *)

(** The state of one chat as stored in the memory document. The token
    counters are read with [state.get(...) or 0], so a missing or null counter
    ([None]) reads as 0. *)
Record ChatState := mkChatState {
  mode : option string;
  user_messages : list string;
  assistant_messages : list string;
  input_tokens : option Z;
  output_tokens : option Z
}.

(** What the program can observe and change: the module global
    [_memory_cache] and memory.json. The file is [Some d] when it holds the
    JSON object [d] of chat states, and [None] when it is missing or its
    reading raises [OSError] or [json.JSONDecodeError], the errors
    [_load_json] catches. Files whose reading raises another error and files
    whose top level is not an object are outside this type; [Process] below
    has them. *)
Record World := mkWorld {
  _memory_cache : gmap string ChatState;
  memory_json : option (gmap string ChatState)
}.

(** The world at process start when no memory.json exists. *)
Definition initial_world : World := mkWorld ∅ None.

(** A state monad over [World]. *)
Definition M (A : Type) : Type := World -> A * World.

Definition ret {A} (a : A) : M A := fun w => (a, w).

Definition bind {A B} (m : M A) (k : A -> M B) : M B :=
  fun w => let (a, w') := m w in k a w'.

Notation "'do' x <- m ; k" := (bind m (fun x => k))
  (at level 10, x name, m at level 100, k at level 200).
Notation "m ;; k" := (bind m (fun _ => k))
  (at level 100, k at level 200, right associativity).

(** Result and final world of a computation. *)
Definition eval {A} (m : M A) (w : World) : A := fst (m w).
Definition exec {A} (m : M A) (w : World) : World := snd (m w).

(** [_chat_key]: [str(chat_id)], the decimal numeral. *)
Definition _chat_key (chat_id : Z) : string := pretty chat_id.

(** [_load_json(MEMORY_JSON_PATH)] on the files of [World]: the object held,
    or [{}] for a missing file and for a caught error. *)
Definition _load_json_memory (file : option (gmap string ChatState))
  : gmap string ChatState :=
  default ∅ file.

(** [not d] for a dictionary *)
Definition dict_is_empty (d : gmap string ChatState) : bool :=
  bool_decide (size d = 0%nat).

(** [_get_memory_data]: the cache is filled from the file whenever it is empty,
    not only on the first call. *)
Definition _get_memory_data : M (gmap string ChatState) := fun w =>
  if dict_is_empty (_memory_cache w)
  then let data := _load_json_memory (memory_json w) in
       (data, mkWorld data (memory_json w))
  else (_memory_cache w, w).

(** [_persist_memory]: the whole cache overwrites the file. *)
Definition _persist_memory : M unit := fun w =>
  (tt, mkWorld (_memory_cache w) (Some (_memory_cache w))).

(** The entry [get_chat_state] creates for an unknown chat. *)
Definition default_state : ChatState :=
  mkChatState None [] [] (Some 0) (Some 0).

(** [data[key] = state]: [data] is the cache object itself, so the store is
    updated in place. *)
Definition store (key : string) (state : ChatState) : M unit := fun w =>
  (tt, mkWorld (<[key := state]> (_memory_cache w)) (memory_json w)).

(** [get_chat_state]: the returned dictionary is the one held in the cache;
    callers that assign to its keys do so through [store]. *)
Definition get_chat_state (chat_id : Z) : M ChatState :=
  let key := _chat_key chat_id in
  do data <- _get_memory_data;
  match data !! key with
  | None => store key default_state ;; ret default_state
  | Some state => ret state
  end.

Definition set_chat_mode (chat_id : Z) (mode_key : string) : M unit :=
  do state <- get_chat_state chat_id;
  store (_chat_key chat_id)
    (mkChatState (Some mode_key) (user_messages state) (assistant_messages state)
       (input_tokens state) (output_tokens state)) ;;
  _persist_memory.

Definition append_user_message (chat_id : Z) (text : string) : M unit :=
  do state <- get_chat_state chat_id;
  let appended := user_messages state ++ [text] in
  store (_chat_key chat_id)
    (mkChatState (mode state) (py_slice_from appended (- MAX_USER_MESSAGES))
       (assistant_messages state) (input_tokens state) (output_tokens state)) ;;
  _persist_memory.

Definition append_assistant_message (chat_id : Z) (text : string) : M unit :=
  do state <- get_chat_state chat_id;
  let appended := assistant_messages state ++ [text] in
  store (_chat_key chat_id)
    (mkChatState (mode state) (user_messages state)
       (py_slice_from appended (- MAX_ASSISTANT_MESSAGES))
       (input_tokens state) (output_tokens state)) ;;
  _persist_memory.

(** One entry of the request sent to the API: [{"role": r, "content": c}]. *)
Record Message := mkMessage { role : string; content : string }.

(** The loop [for i in range(n)] of [get_messages_for_api], from index [i]
    with [k] iterations left; [None] stands for [IndexError]. *)
Fixpoint pairs_loop (user_msgs assistant_msgs : list string) (i : Z) (k : nat)
    (messages : list Message) : option (list Message) :=
  match k with
  | O => Some messages
  | S k' =>
      match py_index user_msgs i, py_index assistant_msgs i with
      | Some u, Some a =>
          pairs_loop user_msgs assistant_msgs (i + 1) k'
            (messages ++ [mkMessage "user" u] ++ [mkMessage "assistant" a])
      | _, _ => None
      end
  end.

Definition get_messages_for_api (chat_id : Z) (system_prompt : string)
  : M (option (list Message)) :=
  do state <- get_chat_state chat_id;
  let messages := [mkMessage "system" system_prompt] in
  let user_msgs := user_messages state in
  let assistant_msgs := assistant_messages state in
  let n := Z.min (py_len user_msgs) (py_len assistant_msgs) in
  ret (match pairs_loop user_msgs assistant_msgs 0 (Z.to_nat n) messages with
       | Some messages =>
           if py_len user_msgs >? n
           then match py_index user_msgs (-1) with
                | Some u => Some (messages ++ [mkMessage "user" u])
                | None => None
                end
           else Some messages
       | None => None
       end).

Definition reset_chat (chat_id : Z) : M unit :=
  let key := _chat_key chat_id in
  do data <- _get_memory_data;
  match data !! key with
  | Some state =>
      store key (mkChatState (mode state) [] (assistant_messages state)
                   (input_tokens state) (output_tokens state)) ;;
      store key (mkChatState (mode state) [] []
                   (input_tokens state) (output_tokens state)) ;;
      _persist_memory
  | None => ret tt
  end.

(** [x or 0] on an optional counter: [None] and 0 both give 0. *)
Definition or_0 (x : option Z) : Z := default 0 x.

Definition get_chat_stats (chat_id : Z) : M (Z * Z) :=
  do state <- get_chat_state chat_id;
  ret (or_0 (input_tokens state), or_0 (output_tokens state)).

Definition add_tokens (chat_id : Z) (input_tokens_ output_tokens_ : Z) : M unit :=
  do state <- get_chat_state chat_id;
  store (_chat_key chat_id)
    (mkChatState (mode state) (user_messages state) (assistant_messages state)
       (Some (or_0 (input_tokens state) + input_tokens_))
       (Some (or_0 (output_tokens state) + output_tokens_))) ;;
  _persist_memory.

Definition reset_chat_stats (chat_id : Z) : M unit :=
  do state <- get_chat_state chat_id;
  store (_chat_key chat_id)
    (mkChatState (mode state) (user_messages state) (assistant_messages state)
       (Some 0) (Some 0)) ;;
  _persist_memory.

(** ** Message chunking (main.py, lines 47 and 166-184) *)

Definition TELEGRAM_MESSAGE_LIMIT : Z := 4096.

(** The line feed, ["\n"]. *)
Definition newline : ascii := "010"%char.

(** [s.rfind(c)] for a one-character [c]: the highest index holding [c],
    or -1. *)
Fixpoint py_rfind (s : list ascii) (c : ascii) : Z :=
  match s with
  | [] => -1
  | x :: s' =>
      let r := py_rfind s' c in
      if r >=? 0 then r + 1 else if Ascii.eqb x c then 0 else -1
  end.

(** [s.lstrip(c)] for a one-character [c] *)
Fixpoint py_lstrip (s : list ascii) (c : ascii) : list ascii :=
  match s with
  | [] => []
  | x :: s' => if Ascii.eqb x c then py_lstrip s' c else s
  end.

(** The value of [cut] in one iteration of the loop. *)
Definition split_cut (max_length : Z) (rest : list ascii) : Z :=
  let block := py_slice_to rest max_length in
  let last_newline := py_rfind block newline in
  if last_newline >? max_length / 2 then last_newline + 1 else max_length.

(** The value of [rest] after one iteration that does not leave the loop. *)
Definition next_rest (max_length : Z) (rest : list ascii) : list ascii :=
  py_lstrip (py_slice_from rest (split_cut max_length rest)) newline.

(** The [while rest:] loop. [fuel] bounds the number of times the loop test is
    evaluated; [None] means it was not enough. *)
Fixpoint split_loop (fuel : nat) (max_length : Z) (rest : list ascii)
    (chunks : list (list ascii)) : option (list (list ascii)) :=
  match fuel with
  | O => None
  | S fuel' =>
      match rest with
      | [] => Some chunks
      | _ :: _ =>
          if py_len rest <=? max_length then Some (chunks ++ [rest])
          else split_loop fuel' max_length (next_rest max_length rest)
                 (chunks ++ [py_slice_to rest (split_cut max_length rest)])
      end
  end.

Definition split_message (fuel : nat) (text : list ascii) (max_length : Z)
  : option (list (list ascii)) :=
  if py_len text <=? max_length
  then Some (match text with [] => [] | _ :: _ => [text] end)
  else split_loop fuel max_length text [].

(** A Python string literal as a sequence of characters. *)
Definition str (s : string) : list ascii := list_ascii_of_string s.

(** ** Notions used to state the properties *)

(** The keys of a dictionary, in iteration order. *)
Definition dict_keys {V} (d : dict V) : list string := fst <$> d.

(** The entry stored under [k], if any. *)
Definition dict_lookup {V} (k : string) (d : dict V) : option V :=
  snd <$> List.find (fun kv => String.eqb k (fst kv)) d.

(** The catalog's default key and its modes, with the defaults the code reads
    them with. *)
Definition catalog_default (c : PromptsData) : string :=
  default "assistant"%string (default_prompt c).
Definition catalog_modes (c : PromptsData) : dict PromptDefinition :=
  default [] (prompts c).

(** The fallback chain of the specification for an already chosen key: the
    entry under [key], else the entry under "assistant", else the hard-coded
    string (also used when the entry found has no system prompt). *)
Definition resolve_prompt (c : PromptsData) (key : string) : string :=
  match dict_lookup key (catalog_modes c) with
  | Some entry => default FALLBACK_PROMPT (system_prompt entry)
  | None =>
      match dict_lookup "assistant"%string (catalog_modes c) with
      | Some entry => default FALLBACK_PROMPT (system_prompt entry)
      | None => FALLBACK_PROMPT
      end
  end.

(** The specification's wording of [getSystemPrompt]: the given mode, or the
    catalog default when the mode is null, goes through the fallback chain. *)
Definition get_system_prompt_as_specified (c : PromptsData) (mode_key : option string)
  : string :=
  resolve_prompt c (default (catalog_default c) mode_key).

(** The key the code resolves: the catalog default replaces a null mode and
    also an empty one. *)
Definition effective_mode_key (c : PromptsData) (mode_key : option string) : string :=
  match mode_key with
  | Some k => if decide (k = EmptyString) then catalog_default c else k
  | None => catalog_default c
  end.

(** The dictionary the operations work on: what [_get_memory_data] returns. *)
Definition memory_data (w : World) : gmap string ChatState :=
  eval _get_memory_data w.

(** The file holds exactly the cache. *)
Definition persisted (w : World) : Prop :=
  memory_json w = Some (_memory_cache w).

(** Both windows of a state are within their limits. *)
Definition bounded_state (st : ChatState) : Prop :=
  py_len (user_messages st) <= MAX_USER_MESSAGES /\
  py_len (assistant_messages st) <= MAX_ASSISTANT_MESSAGES.

Definition bounded_store (d : gmap string ChatState) : Prop :=
  forall key st, d !! key = Some st -> bounded_state st.

(** The two append operations, and a sequence of them run in order. *)
Inductive Append :=
  | AppendUser (chat_id : Z) (text : string)
  | AppendAssistant (chat_id : Z) (text : string).

Definition run_append (op : Append) : M unit :=
  match op with
  | AppendUser chat_id text => append_user_message chat_id text
  | AppendAssistant chat_id text => append_assistant_message chat_id text
  end.

Fixpoint run_appends (ops : list Append) : M unit :=
  match ops with
  | [] => ret tt
  | op :: ops' => run_append op ;; run_appends ops'
  end.

(** [new] is [old] with [text] pushed at the end and then only the oldest
    entries dropped, so that at most [limit] remain. *)
Definition fifo_push (limit : Z) (old : list string) (text : string)
    (new : list string) : Prop :=
  exists dropped,
    old ++ [text] = dropped ++ new /\
    py_len new = Z.min limit (py_len old + 1).

(** The entries of the API request. *)
Definition system_entry (s : string) : Message := mkMessage "system" s.
Definition user_entry (s : string) : Message := mkMessage "user" s.
Definition assistant_entry (s : string) : Message := mkMessage "assistant" s.

(** Alternating (user, assistant) pairs, by position. *)
Fixpoint interleave (us assistants : list string) : list Message :=
  match us, assistants with
  | u :: us', a :: assistants' =>
      user_entry u :: assistant_entry a :: interleave us' assistants'
  | _, _ => []
  end.

(** [pieces] cover [text] in order: the text is the pieces one after the other,
    with a possibly empty run of newlines dropped after each piece. *)
Inductive covers : list ascii -> list (list ascii) -> Prop :=
  | covers_nil : covers [] []
  | covers_cons piece gap rest pieces :
      Forall (fun c => c = newline) gap ->
      covers rest pieces ->
      covers (piece ++ gap ++ rest) (piece :: pieces).

(** Every piece is non-empty and at most [max_length] long. *)
Definition within (max_length : Z) (pieces : list (list ascii)) : Prop :=
  Forall (fun piece => 1 <= py_len piece <= max_length) pieces.

(** ** States, worlds and texts the properties are stated at *)

(** A catalog with default "coder" and the modes "coder" and "assistant". *)
Definition two_mode_catalog : PromptsData :=
  mkPromptsData (Some "coder"%string)
    (Some [("coder"%string, mkPrompt None None (Some "You write code."%string));
           ("assistant"%string, mkPrompt None None (Some "You assist."%string))]).

(** The state [get_chat_state] returns, read off the working dictionary. *)
Definition state_of (d : gmap string ChatState) (chat_id : Z) : ChatState :=
  default default_state (d !! _chat_key chat_id).

(** The state [reset_chat] leaves under the chat's key. *)
Definition cleared (st : ChatState) : ChatState :=
  mkChatState (mode st) [] [] (input_tokens st) (output_tokens st).

(** A world whose cache holds chat 7 with a history and counters (12, 34). *)
Definition sample_state : ChatState :=
  mkChatState (Some "coder"%string) ["a"; "b"]%string ["x"]%string (Some 12) (Some 34).
Definition sample_world : World :=
  mkWorld {[ _chat_key 7 := sample_state ]} None.

(** The same chat once the second message has been answered. *)
Definition sample_world_answered : World :=
  mkWorld {[ _chat_key 7 :=
               mkChatState (Some "coder"%string) ["a"; "b"]%string ["x"; "y"]%string
                 (Some 12) (Some 34) ]} None.

(** The state [add_tokens] leaves under the chat's key. *)
Definition credited (input_tokens_ output_tokens_ : Z) (st : ChatState) : ChatState :=
  mkChatState (mode st) (user_messages st) (assistant_messages st)
    (Some (or_0 (input_tokens st) + input_tokens_))
    (Some (or_0 (output_tokens st) + output_tokens_)).

(** The states the two appends leave under the chat's key. *)
Definition user_pushed (text : string) (st : ChatState) : ChatState :=
  mkChatState (mode st)
    (py_slice_from (user_messages st ++ [text]) (- MAX_USER_MESSAGES))
    (assistant_messages st) (input_tokens st) (output_tokens st).

Definition assistant_pushed (text : string) (st : ChatState) : ChatState :=
  mkChatState (mode st) (user_messages st)
    (py_slice_from (assistant_messages st ++ [text]) (- MAX_ASSISTANT_MESSAGES))
    (input_tokens st) (output_tokens st).

(** Twelve user messages and one reply in chat 5. *)
Definition twelve_appends : list Append :=
  (AppendUser 5 <$> ["m1"; "m2"; "m3"; "m4"; "m5"; "m6"; "m7"; "m8"; "m9"; "m10";
                     "m11"; "m12"]%string)
  ++ [AppendAssistant 5 "r1"%string].

(** The trailing entry: the last user message when the user window is the
    longer one, nothing otherwise. *)
Definition trailing (user_msgs assistant_msgs : list string) : list Message :=
  if bool_decide (length assistant_msgs < length user_msgs)%nat
  then match last user_msgs with
       | Some u => [user_entry u]
       | None => []
       end
  else [].

(** The sequence the specification describes for the two windows: the system
    entry, the first [n] pairs, the trailing entry. *)
Definition api_messages (system_prompt : string) (user_msgs assistant_msgs : list string)
  : list Message :=
  let n := Nat.min (length user_msgs) (length assistant_msgs) in
  system_entry system_prompt
  :: interleave (take n user_msgs) (take n assistant_msgs)
  ++ trailing user_msgs assistant_msgs.

(** A text of one letter. *)
Definition one_letter : list ascii := ["a"%char].

(** ["abcd\nefghijk"], twelve characters with a newline past the middle of the
    first six. *)
Definition two_lines : list ascii := str "abcd" ++ [newline] ++ str "efghijk".

(** Nine thousand letters. *)
Definition nine_thousand_letters : list ascii := replicate (Z.to_nat 9000) "a"%char.

(** ** Further notions: mutations, restarts and exchanges *)

(** The operations of memory.py that always end in [_persist_memory]. *)
Inductive Mutation :=
  | SetMode (chat_id : Z) (mode_key : string)
  | PushUser (chat_id : Z) (text : string)
  | PushAssistant (chat_id : Z) (text : string)
  | AddTokens (chat_id : Z) (input_tokens_ output_tokens_ : Z)
  | ResetStats (chat_id : Z).

Definition run_mutation (op : Mutation) : M unit :=
  match op with
  | SetMode chat_id mode_key => set_chat_mode chat_id mode_key
  | PushUser chat_id text => append_user_message chat_id text
  | PushAssistant chat_id text => append_assistant_message chat_id text
  | AddTokens chat_id i o => add_tokens chat_id i o
  | ResetStats chat_id => reset_chat_stats chat_id
  end.

(** The chat a mutation is about. *)
Definition mutation_chat (op : Mutation) : Z :=
  match op with
  | SetMode chat_id _ | PushUser chat_id _ | PushAssistant chat_id _
  | AddTokens chat_id _ _ | ResetStats chat_id => chat_id
  end.

(** The state a mutation leaves under its chat's key. *)
Definition mutated (op : Mutation) (st : ChatState) : ChatState :=
  match op with
  | SetMode _ mode_key =>
      mkChatState (Some mode_key) (user_messages st) (assistant_messages st)
        (input_tokens st) (output_tokens st)
  | PushUser _ text => user_pushed text st
  | PushAssistant _ text => assistant_pushed text st
  | AddTokens _ i o => credited i o st
  | ResetStats _ =>
      mkChatState (mode st) (user_messages st) (assistant_messages st) (Some 0) (Some 0)
  end.

(** A process restart: the module global [_memory_cache = {}] is initialised
    again, memory.json is as the last run left it. *)
Definition restart (w : World) : World := mkWorld ∅ (memory_json w).

(** [append_user_message] for each text in turn. *)
Fixpoint append_user_messages (chat_id : Z) (texts : list string) : M unit :=
  match texts with
  | [] => ret tt
  | text :: texts' => append_user_message chat_id text ;; append_user_messages chat_id texts'
  end.

(** Lines 553-554 of [_handle_openai_request]: the mode in force for a chat,
    [state.get("mode") or prompts_data.get("default_prompt", "assistant")],
    and the system prompt looked up for it. *)
Definition current_mode (prompts_data : PromptsData) (state : ChatState) : string :=
  py_or (mode state) (default "assistant"%string (default_prompt prompts_data)).

Definition current_system_prompt (prompts_data : PromptsData) (state : ChatState)
  : string :=
  get_system_prompt prompts_data (Some (current_mode prompts_data state)).

(** Lines 550 and 555 of [_handle_openai_request]: the user's text is appended,
    then the request is built. *)
Definition request_for (chat_id : Z) (text system_prompt : string)
  : M (option (list Message)) :=
  append_user_message chat_id text ;;
  get_messages_for_api chat_id system_prompt.

(** Ten answered exchanges in chat 5, which fill both windows. *)
Definition ten_exchanges : list Append :=
  mjoin ((fun t => [AppendUser 5 ("q" +:+ t); AppendAssistant 5 ("r" +:+ t)])
           <$> ["1"; "2"; "3"; "4"; "5"; "6"; "7"; "8"; "9"; "10"]%string).

Definition full_world : World := exec (run_appends ten_exchanges) initial_world.

(** The run of the [while rest:] loop of [split_message] as a relation:
    [loop_run max_length rest pieces] when the loop entered with [rest]
    appends exactly [pieces] before it ends. *)
Inductive loop_run (max_length : Z) : list ascii -> list (list ascii) -> Prop :=
  | loop_run_end : loop_run max_length [] []
  | loop_run_last rest :
      rest ≠ [] -> py_len rest <= max_length -> loop_run max_length rest [rest]
  | loop_run_cut rest pieces :
      rest ≠ [] -> max_length < py_len rest ->
      loop_run max_length (next_rest max_length rest) pieces ->
      loop_run max_length rest
        (py_slice_to rest (split_cut max_length rest) :: pieces).

(** A piece begins with a newline. *)
Definition starts_with_newline (piece : list ascii) : Prop :=
  head piece = Some newline.

(** ** The prompt cache (memory.py, lines 64 and 172-184) *)

(** The module global [_prompts_cache] ([None] until the first load) and
    prompts.json, with [None] for a missing file and for a caught error, as
    in [_load_json_prompts]. *)
Record PromptsWorld := mkPromptsWorld {
  _prompts_cache : option PromptsData;
  prompts_json : option PromptsData
}.

Definition get_prompts_data (pw : PromptsWorld) : PromptsData * PromptsWorld :=
  match _prompts_cache pw with
  | None =>
      let loaded := load_prompts (prompts_json pw) in
      (loaded, mkPromptsWorld (Some loaded) (prompts_json pw))
  | Some cached => (cached, pw)
  end.

Definition reload_prompts (pw : PromptsWorld) : PromptsData * PromptsWorld :=
  let loaded := load_prompts (prompts_json pw) in
  (loaded, mkPromptsWorld (Some loaded) (prompts_json pw)).

(** The process starts with this prompts.json. *)
Definition prompts_start (file : option PromptsData) : PromptsWorld :=
  mkPromptsWorld None file.

(** A prompts.json with the single mode "a" and a default that is not a mode,
    and one with the modes of the two-mode catalog. *)
Definition one_mode_file : option PromptsData :=
  Some (mkPromptsData (Some "missing"%string)
          (Some [("a"%string, mkPrompt (Some "Mode A"%string) None (Some "Be A."%string))])).
Definition two_mode_file : option PromptsData := Some two_mode_catalog.

(** ** Mode selection (main.py, lines 155-163 and 480-495) *)

(** [s.removeprefix(prefix)] *)
Fixpoint strip_prefix (prefix s : string) : option string :=
  match prefix, s with
  | EmptyString, _ => Some s
  | String a prefix', String b s' =>
      if Ascii.eqb a b then strip_prefix prefix' s' else None
  | String _ _, EmptyString => None
  end.

Definition py_removeprefix (s prefix : string) : string :=
  default s (strip_prefix prefix s).

(** One inline button: its caption and the data sent back when it is
    pressed. *)
Record InlineKeyboardButton := mkInlineKeyboardButton {
  button_text : string;
  callback_data : string
}.

(** [build_mode_keyboard]: the rows of the inline keyboard, one button per
    mode in the iteration order of the prompts. *)
Definition build_mode_keyboard (pw : PromptsWorld)
  : list (list InlineKeyboardButton) * PromptsWorld :=
  let (prompts_data, pw') := get_prompts_data pw in
  let prompts_ := default [] (prompts prompts_data) in
  ((fun kv => [mkInlineKeyboardButton (default (fst kv) (name (snd kv)))
                 ("mode:" +:+ fst kv)]) <$> prompts_,
   pw').

(** The two reply keyboards, each built by a function without arguments. *)
Inductive ReplyKeyboard :=
  | build_main_keyboard
  | build_image_settings_keyboard.

(** What a handler sends: [callback.answer(text)] (no text: [None]) and
    [callback.message.answer(text, reply_markup=..., parse_mode="Markdown")]. *)
Inductive Outgoing :=
  | callback_answer (text : option string)
  | message_answer_markdown (text : string) (reply_markup : ReplyKeyboard).

(** The two module states [callback_mode] works on. *)
Record Bot := mkBot {
  bot_memory : World;
  bot_prompts : PromptsWorld
}.

(** [callback_mode] for the callback data [data] from chat [chat_id]. The
    result is what was sent, or [None] when a [KeyError] was raised by
    [prompts_data["prompts"][key]]. *)
Definition callback_mode (chat_id : Z) (data : string) (bot : Bot)
  : option (list Outgoing) * Bot :=
  let key := py_removeprefix data "mode:" in
  let (prompts_data, pw') := get_prompts_data (bot_prompts bot) in
  if negb (dict_mem key (default [] (prompts prompts_data)))
  then (Some [callback_answer (Some "Неизвестный режим."%string)],
        mkBot (bot_memory bot) pw')
  else
    let memory' := exec (set_chat_mode chat_id key) (bot_memory bot) in
    match prompts prompts_data with
    | None => (None, mkBot memory' pw')
    | Some prompts_ =>
        match dict_lookup key prompts_ with
        | None => (None, mkBot memory' pw')
        | Some entry =>
            let mode_name := default key (name entry) in
            (Some [callback_answer None;
                   message_answer_markdown
                     ("Режим изменён на: **" +:+ mode_name +:+ "**")
                     build_main_keyboard],
             mkBot memory' pw')
        end
    end.

(** ** Image settings (main.py, lines 57-64, 102-106, 118-124, 143-152 and 399-436) *)

(** The dictionaries of image settings are objects that are shared and
    changed in place, so they live in a store of objects addressed by
    identity. [DEFAULT_IMAGE_SETTINGS] is the object at [default_settings];
    [_image_settings] maps a chat to the identity of its dictionary. *)
Record ImageWorld := mkImageWorld {
  objects : gmap nat (gmap string string);
  _image_settings : gmap Z nat
}.

Definition default_settings : nat := 0%nat.

(** The content of [DEFAULT_IMAGE_SETTINGS] when the module is loaded. *)
Definition DEFAULT_IMAGE_SETTINGS : gmap string string :=
  {[ "quality" := "low"; "size" := "1024x1536"; "background" := "auto";
     "output_format" := "png" ]}%string.

(** The module as loaded: the defaults object, no chat yet. *)
Definition image_start : ImageWorld :=
  mkImageWorld {[ default_settings := DEFAULT_IMAGE_SETTINGS ]} ∅.

(** The content of the object [r] ([{}] if there is none). *)
Definition object_content (iw : ImageWorld) (r : nat) : gmap string string :=
  default ∅ (objects iw !! r).

(** [get_image_settings]: the identity of the chat's dictionary; for a new
    chat, [DEFAULT_IMAGE_SETTINGS.copy()] makes a new object. *)
Definition get_image_settings (chat_id : Z) (iw : ImageWorld) : nat * ImageWorld :=
  match _image_settings iw !! chat_id with
  | Some r => (r, iw)
  | None =>
      let r := fresh (dom (objects iw)) in
      (r, mkImageWorld (<[r := object_content iw default_settings]> (objects iw))
            (<[chat_id := r]> (_image_settings iw)))
  end.

(** [d[key] = value] on the object [r] *)
Definition set_item (r : nat) (key value : string) (iw : ImageWorld) : ImageWorld :=
  mkImageWorld (alter (fun d => <[key := value]> d) r (objects iw)) (_image_settings iw).

(** ["\n"] *)
Definition LF : string := String "010"%char EmptyString.

(** The dictionary [size_labels] of [format_image_settings_text]. *)
Definition size_labels : gmap string string :=
  {[ "1024x1024" := "Square 1024×1024"; "1024x1536" := "Portrait 1024×1536";
     "1536x1024" := "Landscape 1536×1024"; "auto" := "auto" ]}%string.

(** [format_image_settings_text]; [None] when one of the [s[...]] raises
    [KeyError]. *)
Definition format_image_settings_text (chat_id : Z) (iw : ImageWorld)
  : option string * ImageWorld :=
  let (r, iw') := get_image_settings chat_id iw in
  let s := object_content iw' r in
  (match s !! "quality"%string, s !! "size"%string,
         s !! "background"%string, s !! "output_format"%string with
   | Some quality, Some size, Some background, Some output_format =>
       Some ("Качество: **" +:+ quality +:+ "**" +:+ LF +:+
             "Размер: **" +:+ default size (size_labels !! size) +:+ "**" +:+ LF +:+
             "Фон: **" +:+ background +:+ "**" +:+ LF +:+
             "Формат: **" +:+ output_format +:+ "**")
   | _, _, _, _ => None
   end, iw').

(** The four callbacks that save a choice differ in the prefix of the data,
    the key they assign and the caption of their answer. *)
Definition save_image_choice (prefix key caption : string) (chat_id : Z) (data : string)
    (iw : ImageWorld) : option (list Outgoing) * ImageWorld :=
  let value := py_removeprefix data prefix in
  let (r, iw1) := get_image_settings chat_id iw in
  let iw2 := set_item r key value iw1 in
  let (formatted, iw3) := format_image_settings_text chat_id iw2 in
  (match formatted with
   | Some settings_text =>
       Some [callback_answer (Some (caption +:+ ": " +:+ value));
             message_answer_markdown
               ("Настройки обновлены." +:+ LF +:+ LF +:+ settings_text)
               build_image_settings_keyboard]
   | None => None
   end, iw3).

Definition callback_image_quality := save_image_choice "img_q:" "quality" "Качество".
Definition callback_image_size := save_image_choice "img_s:" "size" "Размер".
Definition callback_image_background := save_image_choice "img_bg:" "background" "Фон".
Definition callback_image_format := save_image_choice "img_fmt:" "output_format" "Формат".

(** [build_size_keyboard] *)
Definition build_size_keyboard : list (list InlineKeyboardButton) :=
  [[mkInlineKeyboardButton "Square 1024×1024" "img_s:1024x1024"];
   [mkInlineKeyboardButton "Portrait 1024×1536" "img_s:1024x1536"];
   [mkInlineKeyboardButton "Landscape 1536×1024" "img_s:1536x1024"];
   [mkInlineKeyboardButton "auto" "img_s:auto"]].

(** The handlers that touch the image settings, and a sequence of them. *)
Inductive ImageEvent :=
  | PressQuality (chat_id : Z) (data : string)
  | PressSize (chat_id : Z) (data : string)
  | PressBackground (chat_id : Z) (data : string)
  | PressFormat (chat_id : Z) (data : string)
  | ShowSettings (chat_id : Z).

Definition image_event_chat (ev : ImageEvent) : Z :=
  match ev with
  | PressQuality c _ | PressSize c _ | PressBackground c _ | PressFormat c _
  | ShowSettings c => c
  end.

Definition run_image_event (ev : ImageEvent) (iw : ImageWorld) : ImageWorld :=
  match ev with
  | PressQuality c data => snd (callback_image_quality c data iw)
  | PressSize c data => snd (callback_image_size c data iw)
  | PressBackground c data => snd (callback_image_background c data iw)
  | PressFormat c data => snd (callback_image_format c data iw)
  | ShowSettings c => snd (format_image_settings_text c iw)
  end.

Definition run_image_events (evs : list ImageEvent) (iw : ImageWorld) : ImageWorld :=
  foldl (fun iw ev => run_image_event ev iw) iw evs.

(** The settings a chat has: the content of the dictionary
    [get_image_settings] returns for it. *)
Definition settings_of (chat_id : Z) (iw : ImageWorld) : gmap string string :=
  let (r, iw') := get_image_settings chat_id iw in object_content iw' r.

(** The image worlds the handlers can produce: the defaults object holds the
    default content, and every chat has a dictionary of its own, which is
    not the defaults object and holds the four keys. *)
Record image_wf (iw : ImageWorld) : Prop := mkImageWf {
  wf_defaults : objects iw !! default_settings = Some DEFAULT_IMAGE_SETTINGS;
  wf_own : forall chat r, _image_settings iw !! chat = Some r ->
             r ≠ default_settings /\ is_Some (objects iw !! r);
  wf_apart : forall chat chat' r, _image_settings iw !! chat = Some r ->
               _image_settings iw !! chat' = Some r -> chat = chat';
  wf_keys : forall chat r, _image_settings iw !! chat = Some r ->
              forall key, key ∈ dom DEFAULT_IMAGE_SETTINGS ->
                is_Some (object_content iw r !! key)
}.

(** ** Reading a JSON file, with the errors that get through
    (memory.py, lines 15-23 and 67-93) *)

(** What happens when [_load_json] reads a file: the path does not exist;
    [open] or [json.load] raises [OSError] or [json.JSONDecodeError], which
    are caught; they raise anything else, such as the [UnicodeDecodeError] of
    a file that is not UTF-8, which is not caught; or [json.load] returns a
    value. *)
Inductive FileRead (V : Type) : Type :=
  | path_missing
  | caught_error
  | uncaught_error
  | parsed (value : V).
Arguments path_missing {V}.
Arguments caught_error {V}.
Arguments uncaught_error {V}.
Arguments parsed {V} value.

(** [_load_json(path)]; [empty] is [{}], and [None] is an exception that
    leaves the function. *)
Definition _load_json {V} (empty : V) (file : FileRead V) : option V :=
  match file with
  | path_missing => Some empty
  | caught_error => Some empty
  | uncaught_error => None
  | parsed value => Some value
  end.

(** A value [json.load] can return for memory.json: an object of chat states,
    or a value that is not an object (a list, a string, a number, a boolean,
    null), of which only its truth value matters. *)
Inductive MemoryJson :=
  | memory_object (d : gmap string ChatState)
  | memory_not_object (truthy : bool).

(** [not v] *)
Definition py_not (v : MemoryJson) : bool :=
  match v with
  | memory_object d => dict_is_empty d
  | memory_not_object truthy => negb truthy
  end.

(** The module global [_memory_cache], which holds whatever was loaded, and
    memory.json. *)
Record Process := mkProcess {
  process_cache : MemoryJson;
  process_file : FileRead MemoryJson
}.

(** A call returns a value or raises; either way it leaves a process. *)
Inductive Outcome (A : Type) : Type :=
  | returns (a : A) (p : Process)
  | raises (p : Process).
Arguments returns {A} a p.
Arguments raises {A} p.

(** [_get_memory_data] with the exception of [_load_json]. *)
Definition _get_memory_data_or_raise (p : Process) : Outcome MemoryJson :=
  if py_not (process_cache p)
  then match _load_json (memory_object ∅) (process_file p) with
       | Some v => returns v (mkProcess v (process_file p))
       | None => raises p
       end
  else returns (process_cache p) p.

(** [get_chat_state] with its exceptions: the one of [_load_json], and the
    [TypeError] of [key not in data], [data[key] = ...] or [data[key]] when
    [data] is not an object. *)
Definition get_chat_state_or_raise (chat_id : Z) (p : Process) : Outcome ChatState :=
  let key := _chat_key chat_id in
  match _get_memory_data_or_raise p with
  | raises p' => raises p'
  | returns (memory_not_object _) p' => raises p'
  | returns (memory_object data) p' =>
      match data !! key with
      | None =>
          returns default_state
            (mkProcess (memory_object (<[key := default_state]> data)) (process_file p'))
      | Some state => returns state p'
      end
  end.

(** The processes [World] stands for: the cache is a dictionary and the file
    is missing, unreadable with a caught error, or holds an object. *)
Inductive models : Process -> World -> Prop :=
  | models_missing c :
      models (mkProcess (memory_object c) path_missing) (mkWorld c None)
  | models_caught c :
      models (mkProcess (memory_object c) caught_error) (mkWorld c None)
  | models_object c d :
      models (mkProcess (memory_object c) (parsed (memory_object d)))
        (mkWorld c (Some d)).

(** A value [json.load] can return for prompts.json: an object with the two
    keys read by [load_prompts], or a value that is not an object. *)
Inductive PromptsJson :=
  | prompts_object (data : PromptsData)
  | prompts_not_object.

(** [load_prompts] with its exceptions: the one of [_load_json], and the
    [AttributeError] of [data.get] when [data] is not an object. *)
Definition load_prompts_or_raise (file : FileRead PromptsJson) : option PromptsData :=
  match _load_json (prompts_object empty_data) file with
  | Some (prompts_object data) => Some (load_prompts (Some data))
  | Some prompts_not_object => None
  | None => None
  end.

(** The prompts files [option PromptsData] stands for. *)
Inductive models_prompts : FileRead PromptsJson -> option PromptsData -> Prop :=
  | models_prompts_missing : models_prompts path_missing None
  | models_prompts_caught : models_prompts caught_error None
  | models_prompts_object data : models_prompts (parsed (prompts_object data)) (Some data).

(** ** The cuts of [split_message], said without the code *)

(** [cut_at_lines max_length text pieces]: [pieces] is what cutting [text]
    window by window gives. A text within the limit is one piece. Otherwise
    the window is the first [max_length] characters; if it has a newline at
    an index above [max_length // 2], the piece ends right after the last
    newline of the window, else the piece is the whole window. The newlines
    that follow the piece are dropped and the rest is cut in the same way. *)
Inductive cut_at_lines (max_length : Z) : list ascii -> list (list ascii) -> Prop :=
  | cut_nothing : cut_at_lines max_length [] []
  | cut_fits text :
      text ≠ [] -> py_len text <= max_length ->
      cut_at_lines max_length text [text]
  | cut_window piece gap rest pieces :
      max_length < py_len (piece ++ gap ++ rest) ->
      py_len piece = max_length ->
      (forall i : nat, max_length / 2 < Z.of_nat i -> piece !! i ≠ Some newline) ->
      Forall (fun c => c = newline) gap ->
      ~ starts_with_newline rest ->
      cut_at_lines max_length rest pieces ->
      cut_at_lines max_length (piece ++ gap ++ rest) (piece :: pieces)
  | cut_after_line line gap rest pieces :
      max_length < py_len ((line ++ [newline]) ++ gap ++ rest) ->
      max_length / 2 < py_len line ->
      py_len line < max_length ->
      newline ∉ take (Z.to_nat (max_length - py_len line - 1)) (gap ++ rest) ->
      Forall (fun c => c = newline) gap ->
      ~ starts_with_newline rest ->
      cut_at_lines max_length rest pieces ->
      cut_at_lines max_length ((line ++ [newline]) ++ gap ++ rest)
        ((line ++ [newline]) :: pieces).

(** * Properties *)

(** ** Prompt catalog *)

Section Dict.
Context {V : Type}.
Implicit Types (d : dict V) (k : string).

Lemma dict_get_lookup k d (dflt : V) :
  dict_get k d dflt = default dflt (dict_lookup k d).
Proof. unfold dict_get, dict_lookup. by destruct (List.find _ d). Qed.

Lemma dict_mem_keys k d : dict_mem k d = true <-> k ∈ dict_keys d.
Proof.
  unfold dict_mem, dict_keys. induction d as [|[k' v] d IH]; simpl.
  - split; [done | by intros ?%elem_of_nil].
  - rewrite orb_true_iff, String.eqb_eq, IH, elem_of_cons. done.
Qed.

Lemma dict_mem_false_keys k d : dict_mem k d = false <-> k ∉ dict_keys d.
Proof.
  rewrite <- dict_mem_keys. destruct (dict_mem k d); split; done.
Qed.

Lemma dict_first_key_elem d (dflt : string) :
  d ≠ [] -> dict_first_key d dflt ∈ dict_keys d.
Proof. destruct d as [|[k v] d]; [done | intros _; simpl; apply elem_of_cons; by left]. Qed.
End Dict.

(** C7. [load_prompts] always returns both keys; the modes are those of the
    document; the resolved default is a key of the modes whenever there is one;
    a configured default that is a key is kept, one that is not is replaced by
    the first key in iteration order, and with no modes the default is
    "assistant". With default "missing" and the single mode "a" the resolved
    default is "a". *)
Theorem load_prompts_default_resolved (file : option PromptsData) :
  let data := _load_json_prompts file in
  let modes := catalog_modes data in
  let configured := catalog_default data in
  exists resolved,
    default_prompt (load_prompts file) = Some resolved /\
    prompts (load_prompts file) = Some modes /\
    (modes ≠ [] -> resolved ∈ dict_keys modes) /\
    (configured ∈ dict_keys modes -> resolved = configured) /\
    (forall k v others,
        configured ∉ dict_keys modes -> modes = (k, v) :: others -> resolved = k) /\
    (modes = [] -> resolved = "assistant"%string) /\
    (forall entry,
        default_prompt
          (load_prompts (Some (mkPromptsData (Some "missing"%string)
                                 (Some [("a"%string, entry)]))))
        = Some "a"%string).
Proof.
  intros data modes configured. unfold load_prompts.
  fold data. fold (catalog_modes data) (catalog_default data). fold modes configured.
  clearbody modes configured. clear data.
  destruct (dict_mem configured modes) eqn:Hmem; simpl.
  - apply dict_mem_keys in Hmem. exists configured. split_and!; try done.
    intros Hnil. rewrite Hnil in Hmem. by apply elem_of_nil in Hmem.
  - apply dict_mem_false_keys in Hmem. eexists. split_and!; try done.
    + apply dict_first_key_elem.
    + by intros k v others _ ->.
    + by intros ->.
Qed.

(** At the document [{"default_prompt": "missing", "prompts": {"a": {}}}]. *)
Lemma load_prompts_default_resolved_witness :
  default_prompt
    (load_prompts (Some (mkPromptsData (Some "missing"%string)
                           (Some [("a"%string, empty_prompt)]))))
  = Some "a"%string.
Proof.
  destruct (load_prompts_default_resolved
              (Some (mkPromptsData (Some "missing"%string)
                       (Some [("a"%string, empty_prompt)]))))
    as (resolved & Hdefault & _ & _ & _ & Hfirst & _).
  rewrite Hdefault. f_equal.
  apply (Hfirst "a"%string empty_prompt []); [|reflexivity].
  apply dict_mem_false_keys. reflexivity.
Defined.

Lemma py_or_effective (c : PromptsData) (mode_key : option string) :
  py_or mode_key (catalog_default c) = effective_mode_key c mode_key.
Proof.
  unfold py_or, effective_mode_key. destruct mode_key as [k|]; [|done].
  case_decide as Hk.
  - by rewrite Hk.
  - apply String.eqb_neq in Hk. by rewrite Hk.
Qed.

(** C8, as stated, fails. For the empty mode key, which is not null, the
    code resolves the catalog default ("coder") where the stated chain looks
    the key up, misses and falls back to "assistant". *)
Lemma get_system_prompt_empty_mode_key :
  get_system_prompt two_mode_catalog (Some EmptyString) = "You write code."%string /\
  get_system_prompt_as_specified two_mode_catalog (Some EmptyString) = "You assist."%string /\
  get_system_prompt two_mode_catalog (Some EmptyString)
    ≠ get_system_prompt_as_specified two_mode_catalog (Some EmptyString).
Proof. split_and!; [reflexivity | reflexivity | discriminate]. Qed.

(** C8, amended. [get_system_prompt] is a total function to strings: the given
    mode, or the catalog default when the mode is null or the empty string,
    is looked up in the modes; when absent the entry "assistant" is used, and
    when that is absent too, or the entry has no system prompt, the hard-coded
    string is returned. It agrees with the stated chain on every mode that is
    null or non-empty, and with an empty catalog a null mode gives the
    hard-coded string. *)
Theorem get_system_prompt_resolves (c : PromptsData) (mode_key : option string) :
  get_system_prompt c mode_key = resolve_prompt c (effective_mode_key c mode_key) /\
  (mode_key ≠ Some EmptyString ->
   get_system_prompt c mode_key = get_system_prompt_as_specified c mode_key) /\
  get_system_prompt empty_data None = FALLBACK_PROMPT /\
  get_system_prompt (load_prompts None) None = FALLBACK_PROMPT.
Proof.
  assert (Hcode : get_system_prompt c mode_key
                  = resolve_prompt c (effective_mode_key c mode_key)).
  { unfold get_system_prompt, resolve_prompt.
    fold (catalog_default c) (catalog_modes c).
    rewrite py_or_effective, !dict_get_lookup.
    destruct (dict_lookup (effective_mode_key c mode_key) (catalog_modes c)); [done|].
    simpl. by destruct (dict_lookup "assistant"%string (catalog_modes c)). }
  split_and!; [done | | reflexivity | reflexivity].
  intros Hne. rewrite Hcode. unfold get_system_prompt_as_specified. f_equal.
  unfold effective_mode_key. destruct mode_key as [k|]; [|done].
  case_decide; [congruence | done].
Qed.

(** At the two-mode catalog with the mode "assistant". *)
Lemma get_system_prompt_resolves_witness :
  get_system_prompt two_mode_catalog (Some "assistant"%string)
  = get_system_prompt_as_specified two_mode_catalog (Some "assistant"%string).
Proof.
  apply (get_system_prompt_resolves two_mode_catalog (Some "assistant"%string)).
  discriminate.
Defined.

(** ** Chat memory: how the operations act on the world *)

Lemma dict_is_empty_true d : dict_is_empty d = true <-> d = ∅.
Proof.
  unfold dict_is_empty. rewrite bool_decide_eq_true. apply map_size_empty_iff.
Qed.

Lemma dict_is_empty_lookup d key (st : ChatState) :
  d !! key = Some st -> dict_is_empty d = false.
Proof.
  intros Hst. destruct (dict_is_empty d) eqn:He; [|done].
  apply dict_is_empty_true in He. by rewrite He, lookup_empty in Hst.
Qed.

Lemma memory_data_unfold w :
  memory_data w =
  if dict_is_empty (_memory_cache w) then _load_json_memory (memory_json w)
  else _memory_cache w.
Proof.
  unfold memory_data, eval, _get_memory_data. by destruct (dict_is_empty _).
Qed.

Lemma _get_memory_data_run w :
  _get_memory_data w = (memory_data w, mkWorld (memory_data w) (memory_json w)).
Proof.
  rewrite memory_data_unfold. unfold _get_memory_data.
  destruct (dict_is_empty _); [done|]. by destruct w.
Qed.

(** Once a chat is in the cache, the cache is the working dictionary. *)
Lemma memory_data_cache d file key (st : ChatState) :
  d !! key = Some st -> memory_data (mkWorld d file) = d.
Proof.
  intros Hst. rewrite memory_data_unfold. simpl.
  by rewrite (dict_is_empty_lookup _ _ _ Hst).
Qed.

Lemma memory_data_persisted d : memory_data (mkWorld d (Some d)) = d.
Proof.
  rewrite memory_data_unfold. simpl.
  destruct (dict_is_empty d) eqn:He; [|done].
  apply dict_is_empty_true in He. by rewrite He.
Qed.

Lemma get_chat_state_run chat w :
  get_chat_state chat w =
  match memory_data w !! _chat_key chat with
  | None => (default_state,
             mkWorld (<[_chat_key chat := default_state]> (memory_data w)) (memory_json w))
  | Some st => (st, mkWorld (memory_data w) (memory_json w))
  end.
Proof.
  unfold get_chat_state, bind. rewrite _get_memory_data_run.
  by destruct (memory_data w !! _chat_key chat).
Qed.

Lemma get_chat_state_eval chat w :
  eval (get_chat_state chat) w = state_of (memory_data w) chat.
Proof.
  unfold eval, state_of. rewrite get_chat_state_run.
  by destruct (memory_data w !! _chat_key chat).
Qed.

Lemma get_chat_stats_eval chat w :
  eval (get_chat_stats chat) w =
  (or_0 (input_tokens (state_of (memory_data w) chat)),
   or_0 (output_tokens (state_of (memory_data w) chat))).
Proof.
  rewrite <- get_chat_state_eval. unfold get_chat_stats, eval, bind.
  by destruct (get_chat_state chat w).
Qed.

(** The shape shared by every mutator: read the state, assign the changed
    state under the chat's key, persist. *)
Lemma mutate_run chat (f : ChatState -> ChatState) w :
  (do state <- get_chat_state chat;
   store (_chat_key chat) (f state) ;; _persist_memory) w =
  let d := <[_chat_key chat := f (state_of (memory_data w) chat)]> (memory_data w) in
  (tt, mkWorld d (Some d)).
Proof.
  unfold bind at 1. rewrite get_chat_state_run. unfold state_of.
  destruct (memory_data w !! _chat_key chat) as [st|]; simpl.
  - done.
  - unfold bind, store, _persist_memory; simpl. by rewrite insert_insert_eq.
Qed.

Lemma mutate_memory_data chat f w :
  memory_data (exec (do state <- get_chat_state chat;
                     store (_chat_key chat) (f state) ;; _persist_memory) w) =
  <[_chat_key chat := f (state_of (memory_data w) chat)]> (memory_data w).
Proof. unfold exec. rewrite mutate_run. simpl. apply memory_data_persisted. Qed.

Lemma state_of_insert d chat st : state_of (<[_chat_key chat := st]> d) chat = st.
Proof. unfold state_of. by rewrite lookup_insert_eq. Qed.

Lemma state_of_insert_ne d chat chat' st :
  chat ≠ chat' -> state_of (<[_chat_key chat := st]> d) chat' = state_of d chat'.
Proof.
  intros Hne. unfold state_of. rewrite lookup_insert_ne; [done|].
  unfold _chat_key. intros Heq. by apply (inj pretty) in Heq.
Qed.

Lemma reset_chat_run chat w st :
  memory_data w !! _chat_key chat = Some st ->
  reset_chat chat w =
  let d := <[_chat_key chat := cleared st]> (memory_data w) in
  (tt, mkWorld d (Some d)).
Proof.
  intros Hst. unfold reset_chat, bind at 1. rewrite _get_memory_data_run, Hst.
  unfold bind, store, _persist_memory, cleared; simpl. by rewrite insert_insert_eq.
Qed.

(** C6. For a chat present in the store, after [reset_chat] both windows are
    empty, while the mode and the two token counters are those of the prior
    state; [get_chat_stats] returns the same pair before and after; the
    other chats keep their entries and the result is persisted. *)
Theorem reset_chat_clears_history_only (chat : Z) (w : World) (st : ChatState) :
  memory_data w !! _chat_key chat = Some st ->
  let w' := exec (reset_chat chat) w in
  let st' := eval (get_chat_state chat) w' in
  user_messages st' = [] /\
  assistant_messages st' = [] /\
  mode st' = mode st /\
  input_tokens st' = input_tokens st /\
  output_tokens st' = output_tokens st /\
  eval (get_chat_stats chat) w' = eval (get_chat_stats chat) w /\
  (forall k, k ≠ _chat_key chat -> memory_data w' !! k = memory_data w !! k) /\
  persisted w'.
Proof.
  intros Hst w' st'.
  assert (Hw' : w' = let d := <[_chat_key chat := cleared st]> (memory_data w) in
                     mkWorld d (Some d)).
  { subst w'. unfold exec. by rewrite (reset_chat_run _ _ _ Hst). }
  assert (Hd : memory_data w' = <[_chat_key chat := cleared st]> (memory_data w)).
  { rewrite Hw'. apply memory_data_persisted. }
  assert (Hst' : st' = cleared st).
  { subst st'. by rewrite get_chat_state_eval, Hd, state_of_insert. }
  rewrite Hst'. split_and!; try done.
  - rewrite !get_chat_stats_eval, Hd, state_of_insert. unfold state_of.
    by rewrite Hst.
  - intros k Hk. rewrite Hd. by apply lookup_insert_ne.
  - by rewrite Hw'.
Qed.

Lemma reset_chat_clears_history_only_witness :
  user_messages (eval (get_chat_state 7) (exec (reset_chat 7) sample_world)) = [] /\
  eval (get_chat_stats 7) (exec (reset_chat 7) sample_world) = (12, 34).
Proof.
  assert (H : memory_data sample_world !! _chat_key 7 = Some sample_state)
    by reflexivity.
  destruct (reset_chat_clears_history_only 7 sample_world sample_state H)
    as (Hu & _ & _ & _ & _ & Hstats & _).
  split; [exact Hu | rewrite Hstats; reflexivity].
Defined.

Lemma add_tokens_memory_data chat i o w :
  memory_data (exec (add_tokens chat i o) w) =
  <[_chat_key chat := credited i o (state_of (memory_data w) chat)]> (memory_data w).
Proof. apply (mutate_memory_data chat (credited i o)). Qed.

Lemma add_tokens_exec chat i o w :
  exec (add_tokens chat i o) w =
  let d := <[_chat_key chat := credited i o (state_of (memory_data w) chat)]>
             (memory_data w) in
  mkWorld d (Some d).
Proof. unfold exec, add_tokens. by rewrite (mutate_run chat (credited i o)). Qed.

Lemma exec_seq {A B} (m : M A) (k : M B) w : exec (m ;; k) w = exec k (exec m w).
Proof. unfold exec, bind. by destruct (m w). Qed.

Lemma add_tokens_twice chat i1 o1 i2 o2 w :
  exec (add_tokens chat i1 o1 ;; add_tokens chat i2 o2) w =
  let d := <[_chat_key chat :=
               credited (i1 + i2) (o1 + o2) (state_of (memory_data w) chat)]>
             (memory_data w) in
  mkWorld d (Some d).
Proof.
  rewrite exec_seq, (add_tokens_exec chat i2 o2), add_tokens_memory_data.
  rewrite state_of_insert, insert_insert_eq. simpl.
  unfold credited; simpl. by rewrite !Z.add_assoc.
Qed.

(** C9. Two [add_tokens] calls on a chat leave the same world in either order,
    and the counters [get_chat_stats] then reports are the starting values
    plus the componentwise sum of the deltas (for all deltas, non-negative or
    not). From zero, (3,5) then (2,0) and (2,0) then (3,5) both give (5,5). *)
Theorem add_tokens_commute (chat : Z) (w : World) (i1 o1 i2 o2 : Z) :
  let w12 := exec (add_tokens chat i1 o1 ;; add_tokens chat i2 o2) w in
  let w21 := exec (add_tokens chat i2 o2 ;; add_tokens chat i1 o1) w in
  w12 = w21 /\
  eval (get_chat_stats chat) w12 =
    (fst (eval (get_chat_stats chat) w) + (i1 + i2),
     snd (eval (get_chat_stats chat) w) + (o1 + o2)) /\
  eval (get_chat_stats chat)
    (exec (add_tokens chat 3 5 ;; add_tokens chat 2 0) initial_world) = (5, 5) /\
  eval (get_chat_stats chat)
    (exec (add_tokens chat 2 0 ;; add_tokens chat 3 5) initial_world) = (5, 5).
Proof.
  intros w12 w21. subst w12 w21.
  assert (Hstats : forall w i1 o1 i2 o2,
    eval (get_chat_stats chat)
      (exec (add_tokens chat i1 o1 ;; add_tokens chat i2 o2) w) =
    (fst (eval (get_chat_stats chat) w) + (i1 + i2),
     snd (eval (get_chat_stats chat) w) + (o1 + o2))).
  { intros w0 a b c d. rewrite add_tokens_twice, !get_chat_stats_eval. simpl.
    by rewrite memory_data_persisted, state_of_insert. }
  split_and!.
  - rewrite !add_tokens_twice. by rewrite (Z.add_comm i1 i2), (Z.add_comm o1 o2).
  - apply Hstats.
  - by rewrite Hstats.
  - by rewrite Hstats.
Qed.

(** ** Bounded windows *)

Section Slices.
Context {A : Type}.
Implicit Types l : list A.

Lemma py_len_nonneg l : 0 <= py_len l.
Proof. unfold py_len. lia. Qed.

Lemma py_len_app l1 l2 : py_len (l1 ++ l2) = py_len l1 + py_len l2.
Proof. unfold py_len. rewrite length_app. lia. Qed.

Lemma py_slice_take_drop l k : py_slice_to l k ++ py_slice_from l k = l.
Proof. apply take_drop. Qed.

(** [l[-limit:]] keeps the last [limit] entries. *)
Lemma py_len_slice_from_neg l limit :
  0 < limit -> py_len (py_slice_from l (- limit)) = Z.min limit (py_len l).
Proof.
  intros Hlimit. unfold py_slice_from, py_bound, py_len.
  rewrite length_drop.
  destruct (Z.ltb_spec (- limit) 0); lia.
Qed.

Lemma py_len_slice_to l k : 0 <= k -> py_len (py_slice_to l k) = Z.min k (py_len l).
Proof.
  intros Hk. unfold py_slice_to, py_bound, py_len. rewrite length_take.
  destruct (Z.ltb_spec k 0); lia.
Qed.

Lemma py_len_slice_from l k :
  0 <= k -> py_len (py_slice_from l k) = Z.max 0 (py_len l - k).
Proof.
  intros Hk. unfold py_slice_from, py_bound, py_len. rewrite length_drop.
  destruct (Z.ltb_spec k 0); lia.
Qed.
End Slices.

Lemma append_user_memory_data chat text w :
  memory_data (exec (append_user_message chat text) w) =
  <[_chat_key chat := user_pushed text (state_of (memory_data w) chat)]> (memory_data w).
Proof. apply (mutate_memory_data chat (user_pushed text)). Qed.

Lemma append_assistant_memory_data chat text w :
  memory_data (exec (append_assistant_message chat text) w) =
  <[_chat_key chat := assistant_pushed text (state_of (memory_data w) chat)]>
    (memory_data w).
Proof. apply (mutate_memory_data chat (assistant_pushed text)). Qed.

Lemma fifo_push_slice limit (old : list string) text :
  0 < limit -> fifo_push limit old text (py_slice_from (old ++ [text]) (- limit)).
Proof.
  intros Hlimit. exists (py_slice_to (old ++ [text]) (- limit)). split.
  - symmetry. apply py_slice_take_drop.
  - rewrite py_len_slice_from_neg, py_len_app by done. unfold py_len; simpl. lia.
Qed.

Lemma bounded_default : bounded_state default_state.
Proof. unfold bounded_state, MAX_USER_MESSAGES, MAX_ASSISTANT_MESSAGES, py_len. simpl. lia. Qed.

Lemma bounded_state_of d chat : bounded_store d -> bounded_state (state_of d chat).
Proof.
  intros Hd. unfold state_of.
  destruct (d !! _chat_key chat) as [st|] eqn:Hst; [by eapply Hd | apply bounded_default].
Qed.

Lemma bounded_store_insert d key st :
  bounded_store d -> bounded_state st -> bounded_store (<[key := st]> d).
Proof.
  intros Hd Hst k st'. destruct (decide (key = k)) as [->|Hne].
  - rewrite lookup_insert_eq. by intros [= <-].
  - rewrite lookup_insert_ne by done. apply Hd.
Qed.

Lemma bounded_user_pushed text st : bounded_state st -> bounded_state (user_pushed text st).
Proof.
  intros [_ Ha]. split; [|done]. simpl.
  rewrite py_len_slice_from_neg by done. unfold MAX_USER_MESSAGES. lia.
Qed.

Lemma bounded_assistant_pushed text st :
  bounded_state st -> bounded_state (assistant_pushed text st).
Proof.
  intros [Hu _]. split; [done|]. simpl.
  rewrite py_len_slice_from_neg by done. unfold MAX_ASSISTANT_MESSAGES. lia.
Qed.

Lemma run_append_bounded op w :
  bounded_store (memory_data w) -> bounded_store (memory_data (exec (run_append op) w)).
Proof.
  intros Hw. destruct op as [chat text|chat text]; simpl.
  - rewrite append_user_memory_data.
    apply bounded_store_insert, bounded_user_pushed, bounded_state_of; done.
  - rewrite append_assistant_memory_data.
    apply bounded_store_insert, bounded_assistant_pushed, bounded_state_of; done.
Qed.

Lemma run_appends_bounded ops w :
  bounded_store (memory_data w) -> bounded_store (memory_data (exec (run_appends ops) w)).
Proof.
  revert w. induction ops as [|op ops IH]; intros w Hw; simpl.
  - done.
  - rewrite exec_seq. by apply IH, run_append_bounded.
Qed.

(** C2. Starting from a store whose windows are within the limits (the empty
    store in particular), after any sequence of [append_user_message] and
    [append_assistant_message] calls the state of every chat has at most
    [MAX_USER_MESSAGES] = 10 user messages and at most
    [MAX_ASSISTANT_MESSAGES] = 10 assistant messages. From any world at all,
    one append pushes the text at the end of its window and drops only the
    oldest entries, keeping the rest in order and at most 10 of them, and
    leaves the other window as it was. *)
Theorem appends_keep_windows_bounded (ops : list Append) (w : World) :
  bounded_store (memory_data w) ->
  (forall chat, bounded_state (eval (get_chat_state chat) (exec (run_appends ops) w))) /\
  MAX_USER_MESSAGES = 10 /\ MAX_ASSISTANT_MESSAGES = 10 /\
  (forall chat text w0,
      let before := eval (get_chat_state chat) w0 in
      let after := eval (get_chat_state chat) (exec (append_user_message chat text) w0) in
      fifo_push MAX_USER_MESSAGES (user_messages before) text (user_messages after) /\
      py_len (user_messages after) <= MAX_USER_MESSAGES /\
      assistant_messages after = assistant_messages before) /\
  (forall chat text w0,
      let before := eval (get_chat_state chat) w0 in
      let after :=
        eval (get_chat_state chat) (exec (append_assistant_message chat text) w0) in
      fifo_push MAX_ASSISTANT_MESSAGES
        (assistant_messages before) text (assistant_messages after) /\
      py_len (assistant_messages after) <= MAX_ASSISTANT_MESSAGES /\
      user_messages after = user_messages before).
Proof.
  intros Hw. split_and!; try done.
  - intros chat. rewrite get_chat_state_eval.
    by apply bounded_state_of, run_appends_bounded.
  - intros chat text w0 before after. subst before after.
    rewrite !get_chat_state_eval, append_user_memory_data, state_of_insert. simpl.
    split_and!; [by apply fifo_push_slice | | done].
    rewrite py_len_slice_from_neg by done. unfold MAX_USER_MESSAGES. lia.
  - intros chat text w0 before after. subst before after.
    rewrite !get_chat_state_eval, append_assistant_memory_data, state_of_insert. simpl.
    split_and!; [by apply fifo_push_slice | | done].
    rewrite py_len_slice_from_neg by done. unfold MAX_ASSISTANT_MESSAGES. lia.
Qed.

Lemma bounded_initial : bounded_store (memory_data initial_world).
Proof.
  intros key st Hst. change (memory_data initial_world) with (∅ : gmap string ChatState) in Hst.
  by rewrite lookup_empty in Hst.
Qed.

Example twelve_appends_evict_oldest :
  user_messages (eval (get_chat_state 5) (exec (run_appends twelve_appends) initial_world))
  = ["m3"; "m4"; "m5"; "m6"; "m7"; "m8"; "m9"; "m10"; "m11"; "m12"]%string.
Proof. vm_compute. reflexivity. Qed.

Lemma appends_keep_windows_bounded_witness :
  bounded_state (eval (get_chat_state 5) (exec (run_appends twelve_appends) initial_world)).
Proof.
  exact (proj1 (appends_keep_windows_bounded twelve_appends initial_world bounded_initial) 5).
Defined.

(** ** The request sent to the API *)

Section Index.
Context {A : Type}.
Implicit Types l : list A.

Lemma py_index_nat l (i : nat) :
  (i < length l)%nat -> py_index l (Z.of_nat i) = l !! i.
Proof.
  intros Hi. unfold py_index, py_len.
  destruct (Z.leb_spec 0 (Z.of_nat i)); [|lia].
  destruct (Z.ltb_spec (Z.of_nat i) (Z.of_nat (length l))); [|lia].
  simpl. by rewrite Nat2Z.id.
Qed.

Lemma py_index_last l : l ≠ [] -> py_index l (-1) = last l.
Proof.
  intros Hl. unfold py_index, py_len.
  assert (0 < length l)%nat by (destruct l; [done | simpl; lia]).
  destruct (Z.leb_spec 0 (-1)); [lia|]. simpl.
  destruct (Z.leb_spec (- Z.of_nat (length l)) (-1)); [|lia]. simpl.
  rewrite last_lookup. f_equal. lia.
Qed.
End Index.

Lemma interleave_app us1 as1 us2 as2 :
  length us1 = length as1 ->
  interleave (us1 ++ us2) (as1 ++ as2) = interleave us1 as1 ++ interleave us2 as2.
Proof.
  revert as1. induction us1 as [|u us1 IH]; intros [|a as1] Hlen; simpl in *; try done.
  rewrite IH by lia. done.
Qed.

Lemma take_S_lookup {A} (l : list A) i x :
  l !! i = Some x -> take (S i) l = take i l ++ [x].
Proof. intros Hx. by apply take_S_r. Qed.

(** After [k] iterations from index 0 the loop has appended the first [k]
    pairs. *)
Lemma pairs_loop_run user_msgs assistant_msgs (k i : nat) messages :
  (i + k <= length user_msgs)%nat -> (i + k <= length assistant_msgs)%nat ->
  pairs_loop user_msgs assistant_msgs (Z.of_nat i) k
    (messages ++ interleave (take i user_msgs) (take i assistant_msgs)) =
  Some (messages ++ interleave (take (i + k) user_msgs) (take (i + k) assistant_msgs)).
Proof.
  revert i. induction k as [|k IH]; intros i Hu Ha; simpl.
  - by rewrite Nat.add_0_r.
  - destruct (lookup_lt_is_Some_2 user_msgs i) as [u Hui]; [lia|].
    destruct (lookup_lt_is_Some_2 assistant_msgs i) as [a Hai]; [lia|].
    rewrite !py_index_nat, Hui, Hai by lia.
    replace (Z.of_nat i + 1) with (Z.of_nat (S i)) by lia.
    replace (i + S k)%nat with (S i + k)%nat by lia.
    rewrite <- IH by lia. f_equal.
    rewrite (take_S_lookup _ _ _ Hui), (take_S_lookup _ _ _ Hai).
    rewrite interleave_app by (rewrite !length_take; lia).
    by rewrite <- app_assoc.
Qed.

Lemma interleave_lookup us assistants (i : nat) u a :
  us !! i = Some u -> assistants !! i = Some a ->
  interleave us assistants !! (2 * i)%nat = Some (user_entry u) /\
  interleave us assistants !! (2 * i + 1)%nat = Some (assistant_entry a).
Proof.
  revert assistants i. induction us as [|u0 us IH]; intros [|a0 assistants] [|i] Hu Ha;
    simpl in *; try done.
  - by injection Hu as ->; injection Ha as ->.
  - replace (i + S (i + 0))%nat with (S (2 * i)) by lia.
    replace (S (2 * i) + 1)%nat with (S (2 * i + 1)) by lia. simpl.
    by apply IH.
Qed.

Lemma interleave_length us assistants :
  length (interleave us assistants) = (2 * Nat.min (length us) (length assistants))%nat.
Proof.
  revert assistants. induction us as [|u us IH]; intros [|a assistants]; simpl; try done.
  rewrite IH. lia.
Qed.

Lemma get_messages_for_api_eval chat system_prompt w :
  let state := eval (get_chat_state chat) w in
  eval (get_messages_for_api chat system_prompt) w =
  Some (api_messages system_prompt (user_messages state) (assistant_messages state)).
Proof.
  intros state. subst state. unfold get_messages_for_api, eval, bind.
  destruct (get_chat_state chat w) as [state w']. simpl.
  set (us := user_messages state). set (ans := assistant_messages state).
  set (n := Nat.min (length us) (length ans)).
  assert (Hn : Z.to_nat (Z.min (py_len us) (py_len ans)) = n)
    by (unfold py_len; lia).
  rewrite Hn.
  pose proof (pairs_loop_run us ans n 0 [mkMessage "system" system_prompt]) as Hloop.
  simpl in Hloop. change (Z.of_nat 0) with 0 in Hloop.
  rewrite Hloop by lia. clear Hloop.
  unfold api_messages, trailing. fold n.
  destruct (Z.gtb_spec (py_len us) (Z.min (py_len us) (py_len ans))) as [Hgt|Hle].
  - rewrite bool_decide_eq_true_2 by (unfold py_len in Hgt; lia).
    assert (Hne : us ≠ []) by (intros E; rewrite E in Hgt; unfold py_len in Hgt; simpl in Hgt; lia).
    rewrite (py_index_last us Hne).
    destruct (last us) as [u|] eqn:Hlast; [done|].
    by apply last_None in Hlast.
  - rewrite bool_decide_eq_false_2 by (unfold py_len in Hle; lia).
    by rewrite app_nil_r.
Qed.

(** C1. For every chat state with user window [u] and assistant window [a]
    and every system prompt [S], [get_messages_for_api] returns (without an
    index error) the system entry with content [S], then
    [n = min(len(u), len(a))] alternating pairs, the [i]-th being
    ([u[i]], [a[i]]) from the first [n] entries of each window, then one
    trailing user entry holding the last user message exactly when
    [len(u) > n], and nothing more. With [u = ["a","b"]], [a = ["x"]] the
    result is [system:S, user:a, assistant:x, user:b]. *)
Theorem get_messages_for_api_shape (chat : Z) (system_prompt : string) (w : World) :
  let state := eval (get_chat_state chat) w in
  let u := user_messages state in
  let a := assistant_messages state in
  let n := Nat.min (length u) (length a) in
  exists messages,
    eval (get_messages_for_api chat system_prompt) w = Some messages /\
    messages = system_entry system_prompt
               :: interleave (take n u) (take n a) ++ trailing u a /\
    messages !! 0%nat = Some (system_entry system_prompt) /\
    (forall (i : nat) ui ai, u !! i = Some ui -> a !! i = Some ai ->
       messages !! (1 + 2 * i)%nat = Some (user_entry ui) /\
       messages !! (2 + 2 * i)%nat = Some (assistant_entry ai)) /\
    ((n < length u)%nat ->
       exists last_user, last u = Some last_user /\
         trailing u a = [user_entry last_user] /\
         length messages = (1 + 2 * n + 1)%nat) /\
    (length u = n -> trailing u a = [] /\ length messages = (1 + 2 * n)%nat) /\
    eval (get_messages_for_api 7 "S") sample_world =
      Some [system_entry "S"; user_entry "a"; assistant_entry "x"; user_entry "b"] /\
    eval (get_messages_for_api 7 "S") sample_world_answered =
      Some [system_entry "S"; user_entry "a"; assistant_entry "x";
            user_entry "b"; assistant_entry "y"].
Proof.
  intros state u a n. eexists. split; [apply get_messages_for_api_eval|].
  fold state. fold u a. unfold api_messages. fold n.
  assert (Hpairs : length (interleave (take n u) (take n a)) = (2 * n)%nat).
  { rewrite interleave_length, !length_take. lia. }
  split_and!; try done.
  - intros i ui ai Hu Ha.
    assert (i < n)%nat.
    { apply lookup_lt_Some in Hu, Ha. lia. }
    destruct (interleave_lookup (take n u) (take n a) i ui ai) as [H1 H2].
    { by rewrite lookup_take_lt. }
    { by rewrite lookup_take_lt. }
    change (1 + 2 * i)%nat with (S (2 * i)). change (2 + 2 * i)%nat with (S (S (2 * i))).
    simpl lookup. split.
    + rewrite lookup_app_l by lia. exact H1.
    + replace (S (i + (i + 0))) with (2 * i + 1)%nat by lia.
      rewrite lookup_app_l by lia. exact H2.
  - intros Hlt. unfold trailing.
    rewrite bool_decide_eq_true_2 by lia.
    destruct (last u) as [x|] eqn:Hlast.
    + exists x. split_and!; try done. simpl. rewrite length_app, Hpairs. simpl. lia.
    + apply last_None in Hlast. rewrite Hlast in Hlt. simpl in Hlt. lia.
  - intros Heq. unfold trailing. rewrite bool_decide_eq_false_2 by lia.
    split; [done|]. simpl. rewrite length_app, Hpairs. simpl. lia.
Qed.

(** At the world whose chat 7 has [u = ["a","b"]] and [a = ["x"]]: the first
    pair and the trailing entry. *)
Lemma get_messages_for_api_shape_witness :
  exists messages,
    eval (get_messages_for_api 7 "S") sample_world = Some messages /\
    messages !! 1%nat = Some (user_entry "a") /\
    messages !! 2%nat = Some (assistant_entry "x") /\
    length messages = 4%nat.
Proof.
  destruct (get_messages_for_api_shape 7 "S" sample_world)
    as (messages & Heval & _ & _ & Hpairs & Htrailing & _).
  exists messages. split; [exact Heval|].
  destruct (Hpairs 0%nat "a"%string "x"%string) as [Hu Ha]; [reflexivity | reflexivity |].
  split; [exact Hu|]. split; [exact Ha|].
  destruct Htrailing as (last_user & _ & _ & Hlen); [vm_compute; lia|].
  exact Hlen.
Defined.

(** ** Message chunking *)

Lemma py_rfind_range s c : -1 <= py_rfind s c < py_len s.
Proof.
  unfold py_len. induction s as [|x s IH]; simpl py_rfind; simpl length; [lia|].
  rewrite Z.geb_leb. destruct (Z.leb_spec 0 (py_rfind s c)); [lia|].
  destruct (Ascii.eqb x c); lia.
Qed.

Lemma py_rfind_absent s c : c ∉ s -> py_rfind s c = -1.
Proof.
  induction s as [|x s IH]; simpl; [done|].
  intros [Hx Hs]%not_elem_of_cons. rewrite (IH Hs). simpl.
  assert (Hneq : Ascii.eqb x c = false) by (apply Ascii.eqb_neq; congruence).
  by rewrite Hneq.
Qed.

Lemma py_lstrip_split s c :
  exists gap, s = gap ++ py_lstrip s c /\ Forall (fun x => x = c) gap.
Proof.
  induction s as [|x s (gap & Hs & Hgap)]; simpl.
  - by exists [].
  - destruct (Ascii.eqb x c) eqn:Hx.
    + apply Ascii.eqb_eq in Hx. exists (x :: gap). split; [simpl; congruence|].
      by constructor.
    + by exists [].
Qed.

Lemma py_lstrip_length s c : (length (py_lstrip s c) <= length s)%nat.
Proof.
  destruct (py_lstrip_split s c) as (gap & Hs & _).
  rewrite Hs at 2. rewrite length_app. lia.
Qed.

Lemma py_lstrip_absent s c : c ∉ s -> py_lstrip s c = s.
Proof.
  destruct s as [|x s]; simpl; [done|].
  intros [Hx _]%not_elem_of_cons.
  assert (Hneq : Ascii.eqb x c = false) by (apply Ascii.eqb_neq; congruence).
  by rewrite Hneq.
Qed.

(** With a positive limit the cut is between 1 and the limit. *)
Lemma split_cut_range max_length rest :
  1 <= max_length -> 1 <= split_cut max_length rest <= max_length.
Proof.
  intros Hmax. unfold split_cut.
  pose proof (py_rfind_range (py_slice_to rest max_length) newline) as Hr.
  rewrite py_len_slice_to in Hr by lia.
  rewrite Z.gtb_ltb.
  destruct (Z.ltb_spec (max_length / 2) (py_rfind (py_slice_to rest max_length) newline))
    as [Hlt|Hge]; [|lia].
  assert (0 <= max_length / 2) by (apply Z.div_pos; lia). lia.
Qed.

(** With a positive limit an iteration that cuts shortens [rest]. *)
Lemma next_rest_shorter max_length rest :
  1 <= max_length -> max_length < py_len rest ->
  (length (next_rest max_length rest) < length rest)%nat.
Proof.
  intros Hmax Hlen. unfold next_rest.
  pose proof (split_cut_range max_length rest Hmax) as Hcut.
  pose proof (py_lstrip_length (py_slice_from rest (split_cut max_length rest)) newline) as Hstrip.
  pose proof (py_len_slice_from rest (split_cut max_length rest)) as Hfrom.
  unfold py_len in *. lia.
Qed.

Lemma split_loop_cut fuel max_length rest chunks :
  rest ≠ [] -> max_length < py_len rest ->
  split_loop (S fuel) max_length rest chunks =
  split_loop fuel max_length (next_rest max_length rest)
    (chunks ++ [py_slice_to rest (split_cut max_length rest)]).
Proof.
  intros Hrest Hlen. simpl. destruct rest as [|x rest]; [done|].
  destruct (Z.leb_spec (py_len (x :: rest)) max_length); [lia | done].
Qed.

Lemma split_loop_last fuel max_length rest chunks :
  rest ≠ [] -> py_len rest <= max_length ->
  split_loop (S fuel) max_length rest chunks = Some (chunks ++ [rest]).
Proof.
  intros Hrest Hlen. simpl. destruct rest as [|x rest]; [done|].
  destruct (Z.leb_spec (py_len (x :: rest)) max_length); [done | lia].
Qed.

Lemma py_len_pos_nonempty {A} (l : list A) : 0 < py_len l -> l ≠ [].
Proof. intros Hlen ->. unfold py_len in Hlen. simpl in Hlen. lia. Qed.

(** With a positive limit and fuel above the length of [rest], the loop
    returns, and what it appends is a list of pieces within the limit that
    cover [rest]. *)
Lemma split_loop_returns max_length fuel rest chunks :
  1 <= max_length -> (length rest < fuel)%nat ->
  exists pieces,
    split_loop fuel max_length rest chunks = Some (chunks ++ pieces) /\
    within max_length pieces /\ covers rest pieces /\
    (rest = [] -> pieces = []).
Proof.
  intros Hmax. revert rest chunks.
  induction fuel as [|fuel IH]; intros rest chunks Hfuel; [lia|].
  destruct rest as [|x rest'] eqn:Hrest.
  - exists []. simpl. rewrite app_nil_r. split_and!; [done | constructor | constructor | done].
  - rewrite <- Hrest in *. assert (Hne : rest ≠ []) by (by rewrite Hrest).
    assert (Hpos : 1 <= py_len rest) by (rewrite Hrest; unfold py_len; simpl; lia).
    destruct (Z.le_gt_cases (py_len rest) max_length) as [Hle|Hgt].
    + exists [rest]. rewrite split_loop_last by done.
      split_and!; [done | | | by intros ?].
      * constructor; [lia | constructor].
      * rewrite <- (app_nil_r rest) at 1. rewrite <- (app_nil_l []) at 1.
        constructor; constructor.
    + rewrite split_loop_cut by (done || lia).
      pose proof (split_cut_range max_length rest Hmax) as Hcut.
      pose proof (next_rest_shorter max_length rest Hmax ltac:(lia)) as Hshort.
      destruct (IH (next_rest max_length rest)
                  (chunks ++ [py_slice_to rest (split_cut max_length rest)]))
        as (pieces & Hrun & Hwithin & Hcovers & _); [lia|].
      exists (py_slice_to rest (split_cut max_length rest) :: pieces).
      rewrite Hrun, <- app_assoc. split_and!; [done | | | by intros ?].
      * constructor; [|done]. rewrite py_len_slice_to by lia. lia.
      * destruct (py_lstrip_split (py_slice_from rest (split_cut max_length rest)) newline)
          as (gap & Hgap & Hnl).
        rewrite <- (py_slice_take_drop rest (split_cut max_length rest)) at 1.
        rewrite Hgap. by constructor.
Qed.

(** More fuel does not change a result. *)
Lemma split_loop_more_fuel max_length fuel fuel' rest chunks result :
  split_loop fuel max_length rest chunks = Some result -> (fuel <= fuel')%nat ->
  split_loop fuel' max_length rest chunks = Some result.
Proof.
  revert fuel' rest chunks.
  induction fuel as [|fuel IH]; intros fuel' rest chunks Hrun Hle; [done|].
  destruct fuel' as [|fuel']; [lia|]. simpl in *.
  destruct rest as [|x rest]; [done|].
  destruct (py_len (x :: rest) <=? max_length); [done|].
  apply IH; [done | lia].
Qed.

Lemma split_loop_one_letter_diverges max_length fuel chunks :
  max_length <= 0 -> split_loop fuel max_length one_letter chunks = None.
Proof.
  intros Hmax. revert chunks. induction fuel as [|fuel IH]; intros chunks; [done|].
  rewrite split_loop_cut; [| done | unfold py_len; simpl; lia].
  assert (Hbound : forall k, k <= 0 -> py_bound one_letter k = 0%nat).
  { intros k Hk. unfold py_bound, py_len. simpl.
    destruct (Z.ltb_spec k 0); lia. }
  assert (Hcut : split_cut max_length one_letter <= 0).
  { unfold split_cut, py_slice_to. rewrite Hbound by done. simpl.
    destruct (-1 >? max_length / 2); lia. }
  assert (Hnext : next_rest max_length one_letter = one_letter).
  { unfold next_rest, py_slice_from. by rewrite Hbound. }
  rewrite Hnext. apply IH.
Qed.

Lemma split_message_returns text max_length fuel :
  1 <= max_length -> (length text < fuel)%nat ->
  exists pieces,
    split_message fuel text max_length = Some pieces /\
    within max_length pieces /\ covers text pieces.
Proof.
  intros Hmax Hfuel. unfold split_message.
  destruct (Z.leb_spec (py_len text) max_length) as [Hle|Hgt].
  - destruct text as [|x text'] eqn:Htext.
    + exists []. split_and!; [done | constructor | constructor].
    + rewrite <- Htext in *. exists [text]. split_and!; [done | |].
      * constructor; [|constructor]. rewrite Htext at 1. unfold py_len in *. simpl. lia.
      * rewrite <- (app_nil_r text) at 1. rewrite <- (app_nil_l []) at 1.
        constructor; constructor.
  - destruct (split_loop_returns max_length fuel text [] Hmax Hfuel)
      as (pieces & Hrun & Hwithin & Hcovers & _).
    by exists pieces.
Qed.

(** C3, as stated, fails. With limit 6 the twelve characters of
    ["abcd\nefghijk"] fit in two pieces of six, but the code cuts after the
    newline and returns three pieces. *)
Lemma split_message_not_fewest :
  split_message 4 two_lines 6 =
    Some [str "abcd" ++ [newline]; str "efghij"; str "k"] /\
  (str "abcd" ++ [newline] ++ str "e") ++ str "fghijk" = two_lines /\
  py_len (str "abcd" ++ [newline] ++ str "e") <= 6 /\
  py_len (str "fghijk") <= 6 /\
  (length [str "abcd" ++ [newline] ++ str "e"; str "fghijk"]
   < length [str "abcd" ++ [newline]; str "efghij"; str "k"])%nat.
Proof. split_and!; [reflexivity | reflexivity | by vm_compute | by vm_compute | simpl; lia]. Qed.

(** C10. With a limit of at least 1 and fuel above the length of the text,
    [split_message] returns, and more fuel gives the same result; under that
    limit every iteration that cuts leaves a strictly shorter [rest]. The
    condition is needed: for every limit of 0 or less the call on the
    one-letter text ["a"] never returns, whatever the fuel. *)
Theorem split_message_terminates (text : list ascii) (max_length : Z) (fuel : nat) :
  1 <= max_length -> (length text < fuel)%nat ->
  (exists chunks,
     split_message fuel text max_length = Some chunks /\
     forall fuel', (fuel <= fuel')%nat ->
       split_message fuel' text max_length = Some chunks) /\
  (forall rest, max_length < py_len rest ->
     (length (next_rest max_length rest) < length rest)%nat) /\
  (forall limit fuel0, limit <= 0 -> split_message fuel0 one_letter limit = None).
Proof.
  intros Hmax Hfuel. split_and!.
  - destruct (split_message_returns text max_length fuel Hmax Hfuel)
      as (chunks & Hrun & _).
    exists chunks. split; [done|]. intros fuel' Hle.
    unfold split_message in *. destruct (py_len text <=? max_length); [done|].
    by eapply split_loop_more_fuel.
  - intros rest Hlen. by apply next_rest_shorter.
  - intros limit fuel0 Hlimit. unfold split_message.
    destruct (Z.leb_spec (py_len one_letter) limit) as [Hle|_].
    + unfold py_len in Hle. simpl in Hle. lia.
    + by apply split_loop_one_letter_diverges.
Qed.

(** At ["abcd\nefghijk"] with the limit 6. *)
Lemma split_message_terminates_witness :
  exists chunks, split_message 13 two_lines 6 = Some chunks.
Proof.
  assert (H1 : 1 <= 6) by lia.
  assert (H2 : (length two_lines < 13)%nat) by (simpl; lia).
  destruct (split_message_terminates two_lines 6 13 H1 H2) as ((chunks & Hrun & _) & _).
  by exists chunks.
Defined.

(** Without a newline in [rest] the cut is the limit itself and nothing is
    stripped. *)
Lemma split_cut_no_newline max_length rest :
  0 <= max_length -> newline ∉ rest -> split_cut max_length rest = max_length.
Proof.
  intros Hmax Hnl. unfold split_cut.
  rewrite py_rfind_absent.
  - rewrite Z.gtb_ltb. destruct (Z.ltb_spec (max_length / 2) (-1)) as [Hlt|]; [|done].
    assert (0 <= max_length / 2) by (apply Z.div_pos; lia). lia.
  - intros Hin. apply Hnl. unfold py_slice_to in Hin.
    by apply (subseteq_take (py_bound rest max_length) rest).
Qed.

Lemma next_rest_no_newline max_length rest :
  0 <= max_length -> newline ∉ rest ->
  next_rest max_length rest = py_slice_from rest max_length.
Proof.
  intros Hmax Hnl. unfold next_rest. rewrite split_cut_no_newline by done.
  apply py_lstrip_absent. intros Hin. apply Hnl. unfold py_slice_from in Hin.
  by apply (subseteq_drop (py_bound rest max_length) rest).
Qed.

(** C4, as stated, fails. Nine thousand letters without a newline are cut
    into three pieces of 4096, 4096 and 808 characters, not into two of 4096
    and 4904 (the second would exceed the limit). *)
Lemma split_message_9000_three_pieces :
  py_len nine_thousand_letters = 9000 /\
  bool_decide (newline ∈ nine_thousand_letters) = false /\
  option_map (map py_len) (split_message 3 nine_thousand_letters 4096)
    = Some [4096; 4096; 808] /\
  option_map (map py_len) (split_message 3 nine_thousand_letters 4096)
    ≠ Some [4096; 4904].
Proof.
  assert (H : option_map (map py_len) (split_message 3 nine_thousand_letters 4096)
              = Some [4096; 4096; 808]) by (vm_compute; reflexivity).
  split_and!; [by vm_compute | by vm_compute | exact H | rewrite H; discriminate].
Qed.

(** C4, amended. For every text of 9000 characters none of which is a
    newline, [split_message] with the limit 4096 returns exactly three pieces,
    of lengths 4096, 4096 and 808, which put end to end are the text. *)
Theorem split_message_9000 (text : list ascii) (fuel : nat) :
  py_len text = 9000 -> newline ∉ text -> (3 <= fuel)%nat ->
  exists first second third,
    split_message fuel text TELEGRAM_MESSAGE_LIMIT = Some [first; second; third] /\
    py_len first = 4096 /\ py_len second = 4096 /\ py_len third = 808 /\
    text = first ++ second ++ third.
Proof.
  intros Hlen Hnl Hfuel. unfold TELEGRAM_MESSAGE_LIMIT.
  set (tail1 := py_slice_from text 4096).
  set (tail2 := py_slice_from tail1 4096).
  assert (Hnl1 : newline ∉ tail1).
  { intros Hin. apply Hnl. by apply (subseteq_drop (py_bound text 4096) text). }
  assert (Hlen1 : py_len tail1 = 4904).
  { unfold tail1. rewrite py_len_slice_from by lia. lia. }
  assert (Hlen2 : py_len tail2 = 808).
  { unfold tail2. rewrite py_len_slice_from by lia. lia. }
  exists (py_slice_to text 4096), (py_slice_to tail1 4096), tail2.
  split_and!.
  - destruct fuel as [|[|[|fuel]]]; try lia.
    unfold split_message.
    destruct (Z.leb_spec (py_len text) 4096); [lia|].
    rewrite split_loop_cut by (try apply py_len_pos_nonempty; lia).
    rewrite next_rest_no_newline, split_cut_no_newline by (done || lia).
    fold tail1.
    rewrite split_loop_cut by (try apply py_len_pos_nonempty; lia).
    rewrite next_rest_no_newline, split_cut_no_newline by (done || lia).
    fold tail2.
    rewrite split_loop_last by (try apply py_len_pos_nonempty; lia).
    done.
  - rewrite py_len_slice_to by lia. lia.
  - rewrite py_len_slice_to by lia. lia.
  - done.
  - unfold tail2, tail1. by rewrite !py_slice_take_drop.
Qed.

Lemma nine_thousand_letters_no_newline : newline ∉ nine_thousand_letters.
Proof. by intros [? _]%elem_of_replicate. Qed.

(** At nine thousand letters ["a"]. *)
Lemma split_message_9000_witness :
  exists first second third,
    split_message 3 nine_thousand_letters TELEGRAM_MESSAGE_LIMIT
      = Some [first; second; third] /\
    py_len first = 4096 /\ py_len second = 4096 /\ py_len third = 808 /\
    nine_thousand_letters = first ++ second ++ third.
Proof.
  apply (split_message_9000 nine_thousand_letters 3).
  - by vm_compute.
  - exact nine_thousand_letters_no_newline.
  - lia.
Defined.

(** * Further properties of the memory store *)

Lemma run_mutation_memory_data op w :
  memory_data (exec (run_mutation op) w) =
  <[_chat_key (mutation_chat op) :=
      mutated op (state_of (memory_data w) (mutation_chat op))]> (memory_data w).
Proof.
  destruct op as [c m|c t|c t|c i o|c]; simpl mutation_chat.
  - exact (mutate_memory_data c (mutated (SetMode c m)) w).
  - exact (mutate_memory_data c (mutated (PushUser c t)) w).
  - exact (mutate_memory_data c (mutated (PushAssistant c t)) w).
  - exact (mutate_memory_data c (mutated (AddTokens c i o)) w).
  - exact (mutate_memory_data c (mutated (ResetStats c)) w).
Qed.

Lemma run_mutation_exec op w :
  exec (run_mutation op) w =
  let d := <[_chat_key (mutation_chat op) :=
               mutated op (state_of (memory_data w) (mutation_chat op))]> (memory_data w) in
  mkWorld d (Some d).
Proof.
  unfold exec. destruct op as [c m|c t|c t|c i o|c]; simpl mutation_chat.
  - exact (f_equal snd (mutate_run c (mutated (SetMode c m)) w)).
  - exact (f_equal snd (mutate_run c (mutated (PushUser c t)) w)).
  - exact (f_equal snd (mutate_run c (mutated (PushAssistant c t)) w)).
  - exact (f_equal snd (mutate_run c (mutated (AddTokens c i o)) w)).
  - exact (f_equal snd (mutate_run c (mutated (ResetStats c)) w)).
Qed.

Lemma memory_data_restart d : memory_data (restart (mkWorld d (Some d))) = d.
Proof. unfold restart. by rewrite memory_data_unfold. Qed.

(** X1. Every mutator of memory.py leaves memory.json equal to the cache, so a
    restart of the process right after it (empty cache, same file) finds the
    same dictionary and reads the same state for every chat. *)
Theorem mutation_survives_restart (op : Mutation) (w : World) :
  let w' := exec (run_mutation op) w in
  persisted w' /\
  memory_data (restart w') = memory_data w' /\
  (forall chat, eval (get_chat_state chat) (restart w') = eval (get_chat_state chat) w').
Proof.
  intros w'. subst w'. rewrite run_mutation_exec. simpl.
  split_and!.
  - done.
  - by rewrite memory_data_restart, memory_data_persisted.
  - intros chat. by rewrite !get_chat_state_eval, memory_data_restart, memory_data_persisted.
Qed.

(** X2. A mutation of one chat changes nothing for any other chat: the state
    read for a different chat id is the same before and after. *)
Theorem mutation_isolated (op : Mutation) (w : World) (chat : Z) :
  chat ≠ mutation_chat op ->
  eval (get_chat_state chat) (exec (run_mutation op) w) = eval (get_chat_state chat) w.
Proof.
  intros Hne. rewrite !get_chat_state_eval, run_mutation_memory_data.
  by apply state_of_insert_ne.
Qed.

(** At chat 7 of the sample world, while chat 8 receives a message. *)
Lemma mutation_isolated_witness :
  eval (get_chat_state 7) (exec (run_mutation (PushUser 8 "hello")) sample_world)
  = eval (get_chat_state 7) sample_world.
Proof. apply (mutation_isolated (PushUser 8 "hello") sample_world 7). simpl. lia. Defined.

Lemma get_system_prompt_key c key entry :
  key ≠ EmptyString -> dict_lookup key (catalog_modes c) = Some entry ->
  get_system_prompt c (Some key) = default FALLBACK_PROMPT (system_prompt entry).
Proof.
  intros Hkey Hentry. unfold get_system_prompt.
  fold (catalog_default c) (catalog_modes c).
  rewrite py_or_effective. unfold effective_mode_key.
  rewrite decide_False by done. by rewrite dict_get_lookup, Hentry.
Qed.

(** X3. After [set_chat_mode] with a non-empty key of the catalog, the mode in
    force for the chat is that key and the system prompt of the next request
    is the one of that entry (the hard-coded string if the entry has none);
    the windows and the counters of the chat are untouched. *)
Theorem set_chat_mode_selects_prompt
    (chat : Z) (key : string) (c : PromptsData) (entry : PromptDefinition) (w : World) :
  key ≠ EmptyString -> dict_lookup key (catalog_modes c) = Some entry ->
  let before := eval (get_chat_state chat) w in
  let after := eval (get_chat_state chat) (exec (set_chat_mode chat key) w) in
  current_mode c after = key /\
  current_system_prompt c after = default FALLBACK_PROMPT (system_prompt entry) /\
  user_messages after = user_messages before /\
  assistant_messages after = assistant_messages before /\
  input_tokens after = input_tokens before /\
  output_tokens after = output_tokens before.
Proof.
  intros Hkey Hentry before after. subst before after.
  rewrite !get_chat_state_eval.
  rewrite (run_mutation_memory_data (SetMode chat key)). simpl mutation_chat.
  rewrite state_of_insert. simpl.
  assert (Hmode : forall st,
    current_mode c (mkChatState (Some key) (user_messages st) (assistant_messages st)
                      (input_tokens st) (output_tokens st)) = key).
  { intros st. unfold current_mode, py_or. simpl.
    apply String.eqb_neq in Hkey. by rewrite Hkey. }
  split_and!; [apply Hmode | | done..].
  unfold current_system_prompt. rewrite Hmode. by apply get_system_prompt_key.
Qed.

(** At the two-mode catalog, choosing "assistant" for chat 7. *)
Lemma set_chat_mode_selects_prompt_witness :
  current_system_prompt two_mode_catalog
    (eval (get_chat_state 7) (exec (set_chat_mode 7 "assistant") sample_world))
  = "You assist."%string.
Proof.
  apply (set_chat_mode_selects_prompt 7 "assistant" two_mode_catalog
           (mkPrompt None None (Some "You assist."%string)) sample_world).
  - discriminate.
  - reflexivity.
Defined.

(** X4. A chat whose stored mode is the empty string is served as if it had no
    mode: the mode in force is the catalog default. *)
Theorem empty_mode_is_no_mode (c : PromptsData) (st : ChatState) :
  mode st = Some EmptyString ->
  current_mode c st = catalog_default c /\
  current_system_prompt c st = get_system_prompt c None.
Proof.
  intros Hmode. unfold current_system_prompt, current_mode. rewrite Hmode. simpl.
  fold (catalog_default c). split; [done|].
  unfold get_system_prompt. fold (catalog_default c).
  rewrite !py_or_effective. unfold effective_mode_key.
  by case_decide.
Qed.

Lemma empty_mode_is_no_mode_witness :
  current_mode two_mode_catalog
    (mkChatState (Some EmptyString) [] [] None None) = "coder"%string.
Proof.
  apply (empty_mode_is_no_mode two_mode_catalog
           (mkChatState (Some EmptyString) [] [] None None)).
  reflexivity.
Defined.

(** X5. [reset_chat_stats] puts both counters of the chat at 0 and leaves its
    mode and both windows as they were; tokens added afterwards are counted
    from 0. *)
Theorem reset_chat_stats_zeroes_counters (chat : Z) (w : World) (i o : Z) :
  let before := eval (get_chat_state chat) w in
  let w' := exec (reset_chat_stats chat) w in
  let after := eval (get_chat_state chat) w' in
  eval (get_chat_stats chat) w' = (0, 0) /\
  mode after = mode before /\
  user_messages after = user_messages before /\
  assistant_messages after = assistant_messages before /\
  eval (get_chat_stats chat) (exec (add_tokens chat i o) w') = (i, o).
Proof.
  intros before w' after. subst before after.
  rewrite get_chat_stats_eval, !get_chat_state_eval.
  assert (Hd : memory_data w' =
               <[_chat_key chat := mutated (ResetStats chat) (state_of (memory_data w) chat)]>
                 (memory_data w))
    by apply (run_mutation_memory_data (ResetStats chat)).
  rewrite Hd, state_of_insert. simpl. split_and!; try done.
  rewrite get_chat_stats_eval, add_tokens_memory_data, state_of_insert, Hd, state_of_insert.
  simpl. done.
Qed.

Lemma memory_data_loaded w :
  memory_data (mkWorld (memory_data w) (memory_json w)) = memory_data w.
Proof.
  rewrite (memory_data_unfold (mkWorld _ _)). simpl.
  destruct (dict_is_empty (memory_data w)) eqn:He; [|done].
  rewrite memory_data_unfold in He |- *.
  destruct (dict_is_empty (_memory_cache w)) eqn:Hcache; [done | congruence].
Qed.

(** X6. [reset_chat] for a chat that is not in the store does nothing the
    other operations can see: no entry is created for the chat, the
    dictionary is the same and memory.json is not written. *)
Theorem reset_chat_unknown_chat (chat : Z) (w : World) :
  memory_data w !! _chat_key chat = None ->
  let w' := exec (reset_chat chat) w in
  memory_data w' = memory_data w /\
  memory_data w' !! _chat_key chat = None /\
  memory_json w' = memory_json w.
Proof.
  intros Hnone w'. subst w'. unfold exec, reset_chat, bind.
  rewrite _get_memory_data_run, Hnone. simpl.
  rewrite memory_data_loaded. done.
Qed.

(** At process start, for chat 1. *)
Lemma reset_chat_unknown_chat_witness :
  memory_json (exec (reset_chat 1) initial_world) = memory_json initial_world.
Proof. apply (reset_chat_unknown_chat 1 initial_world). reflexivity. Defined.

Lemma get_chat_state_exec_file chat w :
  memory_json (exec (get_chat_state chat) w) = memory_json w.
Proof.
  unfold exec. rewrite get_chat_state_run.
  by destruct (memory_data w !! _chat_key chat).
Qed.

Lemma get_chat_state_exec_state_of chat chat' w :
  state_of (memory_data (exec (get_chat_state chat) w)) chat' =
  state_of (memory_data w) chat'.
Proof.
  unfold exec. rewrite get_chat_state_run.
  destruct (memory_data w !! _chat_key chat) as [st|] eqn:Hst; simpl.
  - by rewrite memory_data_loaded.
  - rewrite (memory_data_cache _ _ (_chat_key chat) default_state)
      by apply lookup_insert_eq.
    destruct (decide (chat = chat')) as [<-|Hne].
    + rewrite state_of_insert. unfold state_of. by rewrite Hst.
    + by apply state_of_insert_ne.
Qed.

Lemma exec_read {A} chat (f : ChatState -> A) w :
  exec (do state <- get_chat_state chat; ret (f state)) w = exec (get_chat_state chat) w.
Proof. unfold exec, bind, ret. by destruct (get_chat_state chat w). Qed.

(** X7. The reading operations [get_chat_state], [get_chat_stats] and
    [get_messages_for_api] never write memory.json and never change what is
    read for any chat; for a chat that is not in the store they report the
    counters (0, 0) and a request holding the system entry alone. *)
Theorem reads_change_nothing (chat chat' : Z) (system_prompt : string) (w : World) :
  let unchanged w' :=
    memory_json w' = memory_json w /\
    eval (get_chat_state chat') w' = eval (get_chat_state chat') w in
  unchanged (exec (get_chat_state chat) w) /\
  unchanged (exec (get_chat_stats chat) w) /\
  unchanged (exec (get_messages_for_api chat system_prompt) w) /\
  (memory_data w !! _chat_key chat = None ->
     eval (get_chat_stats chat) w = (0, 0) /\
     eval (get_messages_for_api chat system_prompt) w
       = Some [system_entry system_prompt]).
Proof.
  intros unchanged.
  assert (Hstate : unchanged (exec (get_chat_state chat) w)).
  { split; [apply get_chat_state_exec_file|].
    by rewrite !get_chat_state_eval, get_chat_state_exec_state_of. }
  split_and!.
  - done.
  - unfold get_chat_stats. by rewrite exec_read.
  - unfold get_messages_for_api. by rewrite exec_read.
  - intros Hnone. rewrite get_chat_stats_eval.
    pose proof (get_messages_for_api_eval chat system_prompt w) as Hmsgs.
    simpl in Hmsgs. rewrite Hmsgs, get_chat_state_eval.
    unfold state_of. rewrite Hnone. done.
Qed.

(** At process start, reading the statistics of chat 1. *)
Lemma reads_change_nothing_witness :
  eval (get_chat_stats 1) initial_world = (0, 0) /\
  memory_json (exec (get_chat_stats 1) initial_world) = memory_json initial_world.
Proof.
  destruct (reads_change_nothing 1 1 "S" initial_world) as (_ & [Hfile _] & _ & Hnew).
  split; [apply Hnew; reflexivity | exact Hfile].
Defined.

(** ** Windows over several appends *)

Section Windows.
Context {A : Type}.
Implicit Types l xs : list A.

Lemma py_slice_from_neg l k :
  0 < k -> py_slice_from l (- k) = drop (length l - Z.to_nat k) l.
Proof.
  intros Hk. unfold py_slice_from, py_bound, py_len. f_equal.
  destruct (Z.ltb_spec (- k) 0); lia.
Qed.

(** Keeping the last [k], appending and keeping the last [k] again is keeping
    the last [k] of everything. *)
Lemma py_slice_from_neg_app l xs k :
  0 < k ->
  py_slice_from (py_slice_from l (- k) ++ xs) (- k) = py_slice_from (l ++ xs) (- k).
Proof.
  intros Hk. rewrite !py_slice_from_neg by done.
  rewrite !length_app, length_drop.
  destruct (decide (length l <= Z.to_nat k)%nat) as [Hle|Hgt].
  - replace (length l - Z.to_nat k)%nat with 0%nat by lia. simpl.
    by rewrite Nat.sub_0_r.
  - destruct (decide (length xs <= Z.to_nat k)%nat) as [Hxs|Hxs].
    + rewrite !drop_app_le by (rewrite ?length_drop; lia).
      rewrite drop_drop. do 2 f_equal. lia.
    + rewrite !drop_app_ge by (rewrite ?length_drop; lia).
      rewrite length_drop. f_equal. lia.
Qed.
End Windows.

Lemma append_user_messages_state chat texts w :
  let before := eval (get_chat_state chat) w in
  let after := eval (get_chat_state chat) (exec (append_user_messages chat texts) w) in
  user_messages after =
    match texts with
    | [] => user_messages before
    | _ :: _ => py_slice_from (user_messages before ++ texts) (- MAX_USER_MESSAGES)
    end /\
  assistant_messages after = assistant_messages before.
Proof.
  revert w. induction texts as [|text texts IH]; intros w before after.
  - subst before after. unfold exec. simpl.
    by rewrite !get_chat_state_eval.
  - subst after. simpl append_user_messages. rewrite exec_seq.
    destruct (IH (exec (append_user_message chat text) w)) as [Hu Ha].
    rewrite Hu, Ha. clear Hu Ha IH.
    rewrite !get_chat_state_eval, append_user_memory_data, state_of_insert.
    subst before. rewrite get_chat_state_eval. simpl. split; [|done].
    destruct texts as [|text' texts]; [done|].
    rewrite py_slice_from_neg_app by done. by rewrite <- app_assoc.
Qed.

(** X8. After one or more user messages in a row the user window is exactly
    the last [MAX_USER_MESSAGES] = 10 entries of the old window followed by
    the new texts, in order; the assistant window is as before. *)
Theorem append_user_messages_window (chat : Z) (texts : list string) (w : World) :
  texts ≠ [] ->
  let before := eval (get_chat_state chat) w in
  let after := eval (get_chat_state chat) (exec (append_user_messages chat texts) w) in
  user_messages after
    = py_slice_from (user_messages before ++ texts) (- MAX_USER_MESSAGES) /\
  assistant_messages after = assistant_messages before.
Proof.
  intros Htexts before after.
  destruct (append_user_messages_state chat texts w) as [Hu Ha].
  split; [|exact Ha]. subst before after. rewrite Hu. by destruct texts.
Qed.

(** Twelve messages to a new chat: the two oldest are gone. *)
Lemma append_user_messages_window_witness :
  user_messages
    (eval (get_chat_state 5)
       (exec (append_user_messages 5
                ["m1"; "m2"; "m3"; "m4"; "m5"; "m6"; "m7"; "m8"; "m9"; "m10";
                 "m11"; "m12"]%string) initial_world))
  = ["m3"; "m4"; "m5"; "m6"; "m7"; "m8"; "m9"; "m10"; "m11"; "m12"]%string.
Proof.
  refine (eq_trans (proj1 (append_user_messages_window 5
            ["m1"; "m2"; "m3"; "m4"; "m5"; "m6"; "m7"; "m8"; "m9"; "m10";
             "m11"; "m12"]%string initial_world _)) _).
  - discriminate.
  - reflexivity.
Defined.

Lemma py_slice_from_neg_snoc {A} (l : list A) x k :
  0 < k ->
  py_slice_from (l ++ [x]) (- k) = drop (length l + 1 - Z.to_nat k) l ++ [x].
Proof.
  intros Hk. rewrite py_slice_from_neg by done.
  rewrite length_app. simpl. by rewrite drop_app_le by lia.
Qed.

Lemma eval_seq {A B} (m : M A) (k : M B) w : eval (m ;; k) w = eval k (exec m w).
Proof. unfold eval, exec, bind. by destruct (m w). Qed.

Lemma request_for_eval chat text system_prompt w :
  let state := eval (get_chat_state chat) w in
  eval (request_for chat text system_prompt) w =
  Some (api_messages system_prompt
          (py_slice_from (user_messages state ++ [text]) (- MAX_USER_MESSAGES))
          (assistant_messages state)).
Proof.
  intros state. subst state. unfold request_for. rewrite eval_seq.
  pose proof (get_messages_for_api_eval chat system_prompt
                (exec (append_user_message chat text) w)) as Hmsgs.
  simpl in Hmsgs. rewrite Hmsgs.
  by rewrite !get_chat_state_eval, append_user_memory_data, state_of_insert.
Qed.

(** X9. While the windows are aligned (as many user messages as replies) and
    not yet full, the request built for a new user text is the system entry,
    the stored pairs in order, and the new text as the last entry. *)
Theorem request_ends_with_new_text
    (chat : Z) (text system_prompt : string) (w : World) :
  let state := eval (get_chat_state chat) w in
  length (user_messages state) = length (assistant_messages state) ->
  py_len (user_messages state) < MAX_USER_MESSAGES ->
  eval (request_for chat text system_prompt) w =
  Some (system_entry system_prompt
        :: interleave (user_messages state) (assistant_messages state)
        ++ [user_entry text]).
Proof.
  intros state Hlen Hroom. rewrite request_for_eval. fold state.
  set (u := user_messages state) in *. set (a := assistant_messages state) in *.
  unfold MAX_USER_MESSAGES, py_len in *.
  rewrite py_slice_from_neg_snoc by done.
  replace (length u + 1 - Z.to_nat 10)%nat with 0%nat by lia. rewrite drop_0.
  unfold api_messages, trailing. cbv zeta. rewrite length_app. simpl length.
  replace (Nat.min (length u + 1) (length a)) with (length u) by lia.
  rewrite take_app_length, (take_ge a) by lia.
  rewrite bool_decide_eq_true_2 by lia. by rewrite last_snoc.
Qed.

(** In the sample world once its second message is answered. *)
Lemma request_ends_with_new_text_witness :
  eval (request_for 7 "c" "S") sample_world_answered =
  Some [system_entry "S"; user_entry "a"; assistant_entry "x";
        user_entry "b"; assistant_entry "y"; user_entry "c"].
Proof.
  refine (eq_trans (request_ends_with_new_text 7 "c" "S" sample_world_answered _ _) _).
  - reflexivity.
  - by vm_compute.
  - reflexivity.
Defined.

(** X10. Once both windows are full (10 user messages and 10 replies), the
    request built for a new user text has no trailing user entry: the oldest
    user message is dropped, every remaining user message is paired with the
    reply that was given to the message before it, and the request ends with
    the new text followed by the last stored reply. *)
Theorem request_with_full_windows
    (chat : Z) (text system_prompt : string) (w : World) :
  let state := eval (get_chat_state chat) w in
  py_len (user_messages state) = MAX_USER_MESSAGES ->
  py_len (assistant_messages state) = MAX_ASSISTANT_MESSAGES ->
  exists older last_reply,
    assistant_messages state = older ++ [last_reply] /\
    eval (request_for chat text system_prompt) w =
    Some (system_entry system_prompt
          :: interleave (drop 1 (user_messages state)) older
          ++ [user_entry text; assistant_entry last_reply]).
Proof.
  intros state Hu Ha. rewrite request_for_eval. fold state.
  set (u := user_messages state) in *. set (a := assistant_messages state) in *.
  unfold MAX_USER_MESSAGES, MAX_ASSISTANT_MESSAGES, py_len in *.
  destruct (last a) as [last_reply|] eqn:Hlast.
  2:{ apply last_None in Hlast. rewrite Hlast in Ha. simpl in Ha. lia. }
  apply last_Some in Hlast as [older Holder].
  exists older, last_reply. split; [done|].
  assert (Holder_len : length older = 9%nat).
  { rewrite Holder, length_app in Ha. simpl in Ha. lia. }
  rewrite py_slice_from_neg_snoc by done.
  replace (length u + 1 - Z.to_nat 10)%nat with 1%nat by lia.
  unfold api_messages, trailing. cbv zeta. rewrite length_app, length_drop. simpl length.
  replace (Nat.min (length u - 1 + 1) (length a)) with (length a) by lia.
  rewrite !take_ge by (rewrite ?length_app, ?length_drop; simpl; lia).
  rewrite bool_decide_eq_false_2 by lia.
  rewrite app_nil_r, Holder.
  rewrite interleave_app by (rewrite length_drop; lia). done.
Qed.

(** After ten answered exchanges in chat 5, asking an eleventh question. *)
Lemma request_with_full_windows_witness :
  exists older last_reply,
    assistant_messages (eval (get_chat_state 5) full_world) = older ++ [last_reply] /\
    eval (request_for 5 "q11" "S") full_world =
    Some (system_entry "S"
          :: interleave (drop 1 (user_messages (eval (get_chat_state 5) full_world))) older
          ++ [user_entry "q11"; assistant_entry last_reply]).
Proof.
  apply (request_with_full_windows 5 "q11" "S" full_world); by vm_compute.
Defined.

Example request_with_full_windows_tail :
  option_map (drop 17) (eval (request_for 5 "q11" "S") full_world) =
  Some [user_entry "q10"; assistant_entry "r9";
        user_entry "q11"; assistant_entry "r10"].
Proof. vm_compute. reflexivity. Qed.

(** X11. An answered exchange ([append_user_message], then
    [append_assistant_message]) on aligned windows leaves them aligned: both
    grow by one entry, up to the limit of 10, and end with the new text and
    the new reply. *)
Theorem exchange_keeps_alignment (chat : Z) (text reply : string) (w : World) :
  let before := eval (get_chat_state chat) w in
  let after :=
    eval (get_chat_state chat)
      (exec (append_user_message chat text ;; append_assistant_message chat reply) w) in
  length (user_messages before) = length (assistant_messages before) ->
  length (user_messages after) = length (assistant_messages after) /\
  py_len (user_messages after) = Z.min 10 (py_len (user_messages before) + 1) /\
  last (user_messages after) = Some text /\
  last (assistant_messages after) = Some reply.
Proof.
  intros before after Hlen. subst before after.
  rewrite exec_seq, !get_chat_state_eval in *.
  rewrite append_assistant_memory_data, state_of_insert.
  rewrite append_user_memory_data, state_of_insert. simpl.
  set (u := user_messages _) in *. set (a := assistant_messages _) in *.
  unfold MAX_USER_MESSAGES, MAX_ASSISTANT_MESSAGES.
  rewrite !py_slice_from_neg_snoc by done.
  unfold py_len. rewrite !length_app, !length_drop, !last_snoc. simpl.
  split_and!; try done; lia.
Qed.

(** At the sample world once its second message is answered. *)
Lemma exchange_keeps_alignment_witness :
  last (user_messages
          (eval (get_chat_state 7)
             (exec (append_user_message 7 "c" ;; append_assistant_message 7 "z")
                sample_world_answered))) = Some "c"%string.
Proof.
  apply (exchange_keeps_alignment 7 "c" "z" sample_world_answered). reflexivity.
Defined.

Lemma py_slice_from_neg_fits {A} (l : list A) k :
  py_len l <= k -> py_slice_from l (- k) = l.
Proof.
  intros Hfit. unfold py_slice_from, py_bound.
  replace (Z.to_nat _) with 0%nat; [done|].
  destruct (Z.ltb_spec (- k) 0); unfold py_len in *; lia.
Qed.

Lemma api_messages_shifted system_prompt (u a : list string) (q2 q3 r3 q4 : string) :
  length u = length a ->
  api_messages system_prompt (u ++ [q2; q3; q4]) (a ++ [r3]) =
  system_entry system_prompt
  :: interleave u a ++ [user_entry q2; assistant_entry r3; user_entry q4].
Proof.
  intros Hlen. unfold api_messages, trailing. cbv zeta.
  rewrite !length_app. simpl length.
  replace (Nat.min (length u + 3) (length a + 1)) with (length (u ++ [q2])) 
    by (rewrite length_app; simpl; lia).
  replace (u ++ [q2; q3; q4]) with ((u ++ [q2]) ++ [q3; q4]) by (by rewrite <- app_assoc).
  rewrite take_app_length.
  rewrite take_ge by (rewrite !length_app; simpl; lia).
  rewrite bool_decide_eq_true_2 by lia.
  rewrite interleave_app by done.
  replace ((u ++ [q2]) ++ [q3; q4]) with (((u ++ [q2]) ++ [q3]) ++ [q4])
    by (by rewrite <- !app_assoc).
  rewrite last_snoc. simpl. by rewrite <- app_assoc.
Qed.

(** X23. A user message that got no reply (the request failed after
    [append_user_message]) is not repaired later. With aligned windows and
    room for three more messages: after an unanswered message [q2] and an
    answered one ([q3], reply [r3]), the request for the next message [q4]
    pairs [q2] with [r3] and does not contain [q3] at all. *)
Theorem unanswered_message_shifts_pairs
    (chat : Z) (q2 q3 r3 q4 system_prompt : string) (w : World) :
  let state := eval (get_chat_state chat) w in
  length (user_messages state) = length (assistant_messages state) ->
  py_len (user_messages state) + 3 <= MAX_USER_MESSAGES ->
  let w' :=
    exec (append_user_message chat q2 ;;
          append_user_message chat q3 ;;
          append_assistant_message chat r3) w in
  eval (request_for chat q4 system_prompt) w' =
  Some (system_entry system_prompt
        :: interleave (user_messages state) (assistant_messages state)
        ++ [user_entry q2; assistant_entry r3; user_entry q4]).
Proof.
  intros state Hlen Hroom w'. rewrite request_for_eval.
  subst w'. rewrite !exec_seq, !get_chat_state_eval.
  rewrite append_assistant_memory_data, state_of_insert.
  rewrite append_user_memory_data, state_of_insert.
  rewrite append_user_memory_data, state_of_insert.
  subst state. rewrite get_chat_state_eval in Hlen, Hroom |- *.
  generalize dependent (state_of (memory_data w) chat). intros st Hlen Hroom.
  unfold assistant_pushed, user_pushed. simpl.
  set (u := user_messages st) in *. set (a := assistant_messages st) in *.
  assert (Hu : py_len u <= 7) by (unfold MAX_USER_MESSAGES in Hroom; lia).
  assert (Ha : py_len a <= 7) by (unfold py_len in *; lia).
  rewrite (py_slice_from_neg_fits (u ++ [q2]))
    by (rewrite py_len_app; unfold MAX_USER_MESSAGES, py_len in *; simpl; lia).
  rewrite (py_slice_from_neg_fits ((u ++ [q2]) ++ [q3]))
    by (rewrite !py_len_app; unfold MAX_USER_MESSAGES, py_len in *; simpl; lia).
  rewrite (py_slice_from_neg_fits (((u ++ [q2]) ++ [q3]) ++ [q4]))
    by (rewrite !py_len_app; unfold MAX_USER_MESSAGES, py_len in *; simpl; lia).
  rewrite (py_slice_from_neg_fits (a ++ [r3]))
    by (rewrite py_len_app; unfold MAX_ASSISTANT_MESSAGES, py_len in *; simpl; lia).
  rewrite <- !app_assoc. simpl app.
  by rewrite api_messages_shifted.
Qed.

(** In the sample world once its second message is answered. *)
Lemma unanswered_message_shifts_pairs_witness :
  eval (request_for 7 "q4" "S")
    (exec (append_user_message 7 "q2" ;;
           append_user_message 7 "q3" ;;
           append_assistant_message 7 "r3") sample_world_answered) =
  Some [system_entry "S"; user_entry "a"; assistant_entry "x";
        user_entry "b"; assistant_entry "y";
        user_entry "q2"; assistant_entry "r3"; user_entry "q4"].
Proof.
  refine (eq_trans (unanswered_message_shifts_pairs 7 "q2" "q3" "r3" "q4" "S"
                      sample_world_answered _ _) _).
  - reflexivity.
  - by vm_compute.
  - reflexivity.
Defined.

(** * Further properties of [split_message] *)

(** With a positive limit and enough fuel the loop function computes a run of
    the loop. *)
Lemma split_loop_run max_length fuel rest chunks :
  1 <= max_length -> (length rest < fuel)%nat ->
  exists pieces,
    split_loop fuel max_length rest chunks = Some (chunks ++ pieces) /\
    loop_run max_length rest pieces.
Proof.
  intros Hmax. revert rest chunks.
  induction fuel as [|fuel IH]; intros rest chunks Hfuel; [lia|].
  destruct (decide (rest = [])) as [->|Hne].
  - exists []. simpl. rewrite app_nil_r. split; [done | constructor].
  - destruct (Z.le_gt_cases (py_len rest) max_length) as [Hle|Hgt].
    + exists [rest]. rewrite split_loop_last by done. split; [done | by constructor].
    + rewrite split_loop_cut by (done || lia).
      pose proof (next_rest_shorter max_length rest Hmax ltac:(lia)) as Hshort.
      destruct (IH (next_rest max_length rest)
                  (chunks ++ [py_slice_to rest (split_cut max_length rest)]))
        as (pieces & Hrun & Hloop); [lia|].
      exists (py_slice_to rest (split_cut max_length rest) :: pieces).
      rewrite Hrun, <- app_assoc. split; [done|]. constructor; (done || lia).
Qed.

(** What [split_message] returns, in terms of a run of its loop. *)
Lemma split_message_run max_length fuel text :
  1 <= max_length -> (length text < fuel)%nat ->
  exists pieces,
    split_message fuel text max_length = Some pieces /\
    loop_run max_length text pieces.
Proof.
  intros Hmax Hfuel. unfold split_message.
  destruct (Z.leb_spec (py_len text) max_length) as [Hle|Hgt].
  - destruct text as [|x text'] eqn:Htext.
    + exists []. split; [done | constructor].
    + exists [x :: text']. split; [done | by constructor].
  - destruct (split_loop_run max_length fuel text [] Hmax Hfuel) as (pieces & Hrun & Hloop).
    by exists pieces.
Qed.

Lemma py_lstrip_head s c : head (py_lstrip s c) ≠ Some c.
Proof.
  induction s as [|x s IH]; simpl; [done|].
  destruct (Ascii.eqb x c) eqn:Hx; [done|].
  simpl. apply Ascii.eqb_neq in Hx. congruence.
Qed.

Lemma head_py_slice_to (rest : list ascii) k :
  1 <= k -> head (py_slice_to rest k) = head rest.
Proof.
  intros Hk. unfold py_slice_to, py_bound.
  destruct (Z.ltb_spec k 0); [lia|].
  destruct (Z.to_nat k) as [|n] eqn:Hn; [lia|]. by destruct rest.
Qed.

Lemma loop_run_heads max_length rest pieces :
  1 <= max_length -> loop_run max_length rest pieces ->
  ~ starts_with_newline rest -> Forall (fun piece => ~ starts_with_newline piece) pieces.
Proof.
  intros Hmax Hrun. induction Hrun as [|rest Hne Hle|rest pieces Hne Hgt Hrun IH];
    intros Hhead.
  - constructor.
  - by repeat constructor.
  - constructor.
    + unfold starts_with_newline.
      rewrite head_py_slice_to by apply (split_cut_range max_length rest Hmax). done.
    + apply IH. apply py_lstrip_head.
Qed.

(** X12. With a limit of at least 1, no piece after the first begins with a
    newline: the newlines that follow a cut are dropped, not carried over. *)
Theorem split_message_no_leading_newline
    (text : list ascii) (max_length : Z) (fuel : nat) :
  1 <= max_length -> (length text < fuel)%nat ->
  exists pieces,
    split_message fuel text max_length = Some pieces /\
    Forall (fun piece => ~ starts_with_newline piece) (tail pieces).
Proof.
  intros Hmax Hfuel.
  destruct (split_message_run max_length fuel text Hmax Hfuel) as (pieces & Hrun & Hloop).
  exists pieces. split; [done|].
  destruct Hloop as [|rest Hne Hle|rest pieces Hne Hgt Hloop]; simpl; try constructor.
  eapply loop_run_heads; [done | done |]. apply py_lstrip_head.
Qed.

(** ["abcd\n\n\nefgh"] with the limit 5: the second piece starts at "e". *)
Lemma split_message_no_leading_newline_witness :
  exists pieces,
    split_message 12 (str "abcd" ++ [newline; newline; newline] ++ str "efgh") 5
      = Some pieces /\
    Forall (fun piece => ~ starts_with_newline piece) (tail pieces).
Proof.
  apply (split_message_no_leading_newline
           (str "abcd" ++ [newline; newline; newline] ++ str "efgh") 5 12).
  - lia.
  - simpl. lia.
Defined.

Example split_message_drops_newlines :
  split_message 12 (str "abcd" ++ [newline; newline; newline] ++ str "efgh") 5
  = Some [str "abcd" ++ [newline]; str "efgh"].
Proof. reflexivity. Qed.

Lemma loop_run_no_newline max_length rest pieces :
  1 <= max_length -> loop_run max_length rest pieces -> newline ∉ rest ->
  concat pieces = rest /\
  Z.of_nat (length pieces) = (py_len rest + max_length - 1) / max_length /\
  Forall (fun piece => py_len piece = max_length) (removelast pieces).
Proof.
  intros Hmax Hrun. induction Hrun as [|rest Hne Hle|rest pieces Hne Hgt Hrun IH];
    intros Hnl.
  - split_and!; [done | | constructor].
    unfold py_len. simpl. symmetry. apply Z.div_small. lia.
  - split_and!; [simpl; by rewrite app_nil_r | | constructor].
    assert (1 <= py_len rest).
    { destruct rest; [done|]. unfold py_len. simpl. lia. }
    simpl. symmetry.
    replace (py_len rest + max_length - 1) with ((py_len rest - 1) + 1 * max_length) by lia.
    rewrite Z.div_add by lia. rewrite Z.div_small by lia. lia.
  - rewrite next_rest_no_newline in Hrun, IH by (done || lia).
    rewrite split_cut_no_newline by (done || lia).
    destruct IH as (Hconcat & Hcount & Hfull).
    { intros Hin. apply Hnl. by apply (subseteq_drop (py_bound rest max_length) rest). }
    split_and!.
    + simpl. rewrite Hconcat. apply py_slice_take_drop.
    + simpl length. rewrite Nat2Z.inj_succ, Hcount.
      rewrite py_len_slice_from by lia.
      replace (py_len rest + max_length - 1)
        with ((Z.max 0 (py_len rest - max_length) + max_length - 1) + 1 * max_length)
        by lia.
      rewrite Z.div_add by lia. lia.
    + assert (Hfirst : py_len (py_slice_to rest max_length) = max_length).
      { rewrite py_len_slice_to by lia. lia. }
      destruct pieces as [|piece pieces]; [constructor|].
      change (removelast (py_slice_to rest max_length :: piece :: pieces))
        with (py_slice_to rest max_length :: removelast (piece :: pieces)).
      by constructor.
Qed.

(** X13. For a text without newlines and a limit of at least 1 the pieces put
    end to end are the text, every piece but the last has exactly
    [max_length] characters, and their number is the least possible,
    [ceil(len(text) / max_length)]. *)
Theorem split_message_no_newline_exact
    (text : list ascii) (max_length : Z) (fuel : nat) :
  1 <= max_length -> (length text < fuel)%nat -> newline ∉ text ->
  exists pieces,
    split_message fuel text max_length = Some pieces /\
    concat pieces = text /\
    Z.of_nat (length pieces) = (py_len text + max_length - 1) / max_length /\
    Forall (fun piece => py_len piece = max_length) (removelast pieces).
Proof.
  intros Hmax Hfuel Hnl.
  destruct (split_message_run max_length fuel text Hmax Hfuel) as (pieces & Hrun & Hloop).
  exists pieces. split; [done|]. by apply loop_run_no_newline.
Qed.

(** ["abcdefghij"] with the limit 4. *)
Lemma split_message_no_newline_exact_witness :
  exists pieces,
    split_message 11 (str "abcdefghij") 4 = Some pieces /\
    concat pieces = str "abcdefghij" /\
    Z.of_nat (length pieces) = (py_len (str "abcdefghij") + 4 - 1) / 4 /\
    Forall (fun piece => py_len piece = 4) (removelast pieces).
Proof.
  apply (split_message_no_newline_exact (str "abcdefghij") 4 11).
  - lia.
  - simpl. lia.
  - apply (bool_decide_eq_false_1 (newline ∈ str "abcdefghij")). by vm_compute.
Defined.

Lemma split_cut_more_than_half max_length rest :
  1 <= max_length -> max_length / 2 < split_cut max_length rest.
Proof.
  intros Hmax. unfold split_cut. rewrite Z.gtb_ltb.
  destruct (Z.ltb_spec (max_length / 2) (py_rfind (py_slice_to rest max_length) newline));
    [lia|].
  apply Z.div_lt; lia.
Qed.

Lemma loop_run_more_than_half max_length rest pieces :
  1 <= max_length -> loop_run max_length rest pieces ->
  Forall (fun piece => max_length / 2 < py_len piece) (removelast pieces) /\
  (pieces ≠ [] ->
   (Z.of_nat (length pieces) - 1) * (max_length / 2 + 1) < py_len rest).
Proof.
  intros Hmax Hrun. induction Hrun as [|rest Hne Hle|rest pieces Hne Hgt Hrun IH].
  - split; [constructor | done].
  - split; [constructor|]. intros _. simpl.
    destruct rest; [done|]. unfold py_len. simpl. lia.
  - destruct IH as [Hhalf Hcount].
    pose proof (split_cut_range max_length rest Hmax) as Hcut.
    pose proof (split_cut_more_than_half max_length rest Hmax) as Hcut_half.
    assert (Hpiece : py_len (py_slice_to rest (split_cut max_length rest))
                     = split_cut max_length rest).
    { rewrite py_len_slice_to by lia. lia. }
    assert (Hnext : py_len (next_rest max_length rest)
                    <= py_len rest - split_cut max_length rest).
    { unfold next_rest.
      pose proof (py_lstrip_length
                    (py_slice_from rest (split_cut max_length rest)) newline) as Hstrip.
      pose proof (py_len_slice_from rest (split_cut max_length rest)) as Hfrom.
      unfold py_len in *. lia. }
    split.
    + destruct pieces as [|piece pieces]; [constructor|].
      change (removelast (?p :: piece :: pieces))
        with (p :: removelast (piece :: pieces)).
      constructor; [lia | done].
    + intros _. destruct pieces as [|piece pieces].
      * simpl. lia.
      * specialize (Hcount ltac:(done)).
        change (length (?p :: piece :: pieces)) with (S (length (piece :: pieces))).
        rewrite Nat2Z.inj_succ. nia.
Qed.

(** X14. With a limit of at least 1 every piece but the last is longer than
    half the limit, so [k] pieces are returned only for a text longer than
    [(k - 1) * (max_length // 2 + 1)] characters. *)
Theorem split_message_pieces_more_than_half
    (text : list ascii) (max_length : Z) (fuel : nat) :
  1 <= max_length -> (length text < fuel)%nat ->
  exists pieces,
    split_message fuel text max_length = Some pieces /\
    Forall (fun piece => max_length / 2 < py_len piece) (removelast pieces) /\
    (pieces ≠ [] ->
     (Z.of_nat (length pieces) - 1) * (max_length / 2 + 1) < py_len text).
Proof.
  intros Hmax Hfuel.
  destruct (split_message_run max_length fuel text Hmax Hfuel) as (pieces & Hrun & Hloop).
  exists pieces. split; [done|]. by apply loop_run_more_than_half.
Qed.

(** ["abcd\nefghijk"] with the limit 6. *)
Lemma split_message_pieces_more_than_half_witness :
  exists pieces,
    split_message 13 two_lines 6 = Some pieces /\
    Forall (fun piece => 6 / 2 < py_len piece) (removelast pieces) /\
    (pieces ≠ [] -> (Z.of_nat (length pieces) - 1) * (6 / 2 + 1) < py_len two_lines).
Proof.
  apply (split_message_pieces_more_than_half two_lines 6 13).
  - lia.
  - simpl. lia.
Defined.

(** * Further properties of the prompt catalog *)

Lemma dict_lookup_keys {V} k (d : dict V) : k ∈ dict_keys d <-> is_Some (dict_lookup k d).
Proof.
  unfold dict_keys, dict_lookup. induction d as [|[k' v] d IH]; simpl.
  - split; [by intros ?%elem_of_nil | by intros [? ?]].
  - rewrite elem_of_cons. destruct (String.eqb k k') eqn:Hk; simpl.
    + apply String.eqb_eq in Hk. split; [by eexists | by left].
    + apply String.eqb_neq in Hk. rewrite <- IH.
      split; [intros [Heq|Hin]; [by destruct Hk | done] | by right].
Qed.

Lemma load_prompts_fields file :
  default_prompt (load_prompts file) =
    Some (if dict_mem (catalog_default (_load_json_prompts file))
               (catalog_modes (_load_json_prompts file))
          then catalog_default (_load_json_prompts file)
          else dict_first_key (catalog_modes (_load_json_prompts file)) "assistant"%string) /\
  prompts (load_prompts file) = Some (catalog_modes (_load_json_prompts file)).
Proof.
  unfold load_prompts.
  fold (catalog_modes (_load_json_prompts file)) (catalog_default (_load_json_prompts file)).
  by destruct (dict_mem _ _).
Qed.

(** The resolved default of a loaded catalog is a key of its modes, unless
    there are no modes. *)
Lemma load_prompts_default_mem file :
  catalog_modes (load_prompts file) ≠ [] ->
  dict_mem (catalog_default (load_prompts file)) (catalog_modes (load_prompts file)) = true.
Proof.
  destruct (load_prompts_fields file) as [Hd Hp].
  unfold catalog_default, catalog_modes. rewrite Hd, Hp. simpl.
  fold (catalog_modes (_load_json_prompts file)).
  intros Hne. destruct (dict_mem _ _) eqn:Hmem; [done|].
  apply dict_mem_keys. by apply dict_first_key_elem.
Qed.

(** X15. Loading is idempotent: a catalog returned by [load_prompts], read as
    a prompts document, loads to itself. *)
Theorem load_prompts_idempotent (file : option PromptsData) :
  load_prompts (Some (load_prompts file)) = load_prompts file.
Proof.
  set (c := load_prompts file).
  assert (Hc : c = mkPromptsData (Some (catalog_default c)) (Some (catalog_modes c))).
  { destruct (load_prompts_fields file) as [Hd Hp]. fold c in Hd, Hp.
    unfold catalog_default, catalog_modes. rewrite Hd, Hp. simpl.
    destruct c. simpl in *. by rewrite Hd, Hp. }
  rewrite Hc at 2. unfold load_prompts at 1. simpl _load_json_prompts.
  fold (catalog_modes c) (catalog_default c).
  destruct (decide (catalog_modes c = [])) as [Hnil|Hne].
  - rewrite Hnil. simpl. f_equal.
    destruct (load_prompts_fields file) as [Hd Hp]. fold c in Hd, Hp.
    unfold catalog_default. rewrite Hd.
    unfold catalog_modes in Hnil. rewrite Hp in Hnil. simpl in Hnil.
    fold (catalog_modes (_load_json_prompts file)). rewrite Hnil. done.
  - subst c. by rewrite load_prompts_default_mem.
Qed.

(** X16. With a catalog returned by [load_prompts] whose modes are not empty,
    a chat without a mode is served the system prompt of an existing entry,
    the one under the resolved default (the hard-coded string only if that
    entry has no system prompt). With no modes it is served the hard-coded
    string. *)
Theorem loaded_default_prompt_exists (file : option PromptsData) :
  let catalog := load_prompts file in
  (catalog_modes catalog ≠ [] ->
   exists entry,
     dict_lookup (catalog_default catalog) (catalog_modes catalog) = Some entry /\
     get_system_prompt catalog None
       = default FALLBACK_PROMPT (system_prompt entry)) /\
  (catalog_modes catalog = [] -> get_system_prompt catalog None = FALLBACK_PROMPT).
Proof.
  intros catalog. split.
  - intros Hne.
    pose proof (load_prompts_default_mem file Hne) as Hmem. fold catalog in Hmem.
    apply dict_mem_keys, dict_lookup_keys in Hmem as [entry Hentry].
    exists entry. split; [done|].
    unfold get_system_prompt. fold (catalog_default catalog) (catalog_modes catalog).
    simpl py_or. by rewrite dict_get_lookup, Hentry.
  - intros Hnil. unfold get_system_prompt.
    fold (catalog_default catalog) (catalog_modes catalog). by rewrite Hnil.
Qed.

(** With the single mode "a" and the default "missing". *)
Lemma loaded_default_prompt_exists_witness :
  exists entry,
    dict_lookup (catalog_default (load_prompts one_mode_file))
      (catalog_modes (load_prompts one_mode_file)) = Some entry /\
    get_system_prompt (load_prompts one_mode_file) None
      = default FALLBACK_PROMPT (system_prompt entry).
Proof.
  apply (loaded_default_prompt_exists one_mode_file). discriminate.
Defined.

(** * Mode selection *)

Lemma strip_prefix_app prefix s : strip_prefix prefix (prefix +:+ s) = Some s.
Proof.
  induction prefix as [|a prefix IH]; simpl; [by destruct s|].
  by rewrite Ascii.eqb_refl.
Qed.

Lemma py_removeprefix_app prefix s : py_removeprefix (prefix +:+ s) prefix = s.
Proof. unfold py_removeprefix. by rewrite strip_prefix_app. Qed.

Lemma get_prompts_data_again pw :
  get_prompts_data (snd (get_prompts_data pw))
  = (fst (get_prompts_data pw), snd (get_prompts_data pw)).
Proof.
  unfold get_prompts_data. destruct (_prompts_cache pw) eqn:Hcache; simpl; [|done].
  by rewrite Hcache.
Qed.

Lemma callback_mode_known chat data bot :
  let catalog := fst (get_prompts_data (bot_prompts bot)) in
  let key := py_removeprefix data "mode:" in
  key ∈ dict_keys (catalog_modes catalog) ->
  exists entry,
    dict_lookup key (catalog_modes catalog) = Some entry /\
    callback_mode chat data bot =
    (Some [callback_answer None;
           message_answer_markdown
             ("Режим изменён на: **" +:+ default key (name entry) +:+ "**")
             build_main_keyboard],
     mkBot (exec (set_chat_mode chat key) (bot_memory bot))
       (snd (get_prompts_data (bot_prompts bot)))).
Proof.
  intros catalog key Hkey. subst catalog key. unfold callback_mode.
  destruct (get_prompts_data (bot_prompts bot)) as [prompts_data pw'] eqn:Hget.
  simpl in *. unfold catalog_modes in Hkey.
  pose proof Hkey as Hmem. apply dict_mem_keys in Hmem. rewrite Hmem. simpl.
  destruct (prompts prompts_data) as [prompts_|] eqn:Hprompts.
  - simpl in Hkey. apply dict_lookup_keys in Hkey as [entry Hentry].
    exists entry. unfold catalog_modes. rewrite Hprompts, Hentry. done.
  - simpl in Hkey. by apply elem_of_nil in Hkey.
Qed.

Lemma callback_mode_unknown chat data bot :
  let catalog := fst (get_prompts_data (bot_prompts bot)) in
  py_removeprefix data "mode:" ∉ dict_keys (catalog_modes catalog) ->
  callback_mode chat data bot =
  (Some [callback_answer (Some "Неизвестный режим."%string)],
   mkBot (bot_memory bot) (snd (get_prompts_data (bot_prompts bot)))).
Proof.
  intros catalog Hkey. subst catalog. unfold callback_mode.
  destruct (get_prompts_data (bot_prompts bot)) as [prompts_data pw'] eqn:Hget.
  simpl in *. unfold catalog_modes in Hkey.
  apply dict_mem_false_keys in Hkey. by rewrite Hkey.
Qed.

(** X17. [callback_mode] never raises a [KeyError], whatever the callback data
    and the cached catalog. It stores a mode only when the data, without its
    "mode:" prefix, is a key of the catalog, and then stores exactly that
    key; otherwise it answers "unknown mode" and leaves the memory as it
    was. *)
Theorem callback_mode_stores_known_modes (chat : Z) (data : string) (bot : Bot) :
  let catalog := fst (get_prompts_data (bot_prompts bot)) in
  let key := py_removeprefix data "mode:" in
  let result := callback_mode chat data bot in
  is_Some (fst result) /\
  (key ∈ dict_keys (catalog_modes catalog) ->
   bot_memory (snd result) = exec (set_chat_mode chat key) (bot_memory bot) /\
   mode (eval (get_chat_state chat) (bot_memory (snd result))) = Some key) /\
  (key ∉ dict_keys (catalog_modes catalog) ->
   bot_memory (snd result) = bot_memory bot /\
   fst result = Some [callback_answer (Some "Неизвестный режим."%string)]).
Proof.
  intros catalog key result.
  assert (Hknown : key ∈ dict_keys (catalog_modes catalog) ->
            is_Some (fst result) /\
            bot_memory (snd result) = exec (set_chat_mode chat key) (bot_memory bot) /\
            mode (eval (get_chat_state chat) (bot_memory (snd result))) = Some key).
  { intros Hkey. destruct (callback_mode_known chat data bot Hkey) as (entry & _ & Hrun).
    subst result. rewrite Hrun. simpl. split_and!; [by eexists | done |].
    fold key. rewrite get_chat_state_eval.
    rewrite (run_mutation_memory_data (SetMode chat key)). simpl mutation_chat.
    by rewrite state_of_insert. }
  assert (Hunknown : key ∉ dict_keys (catalog_modes catalog) ->
            is_Some (fst result) /\
            bot_memory (snd result) = bot_memory bot /\
            fst result = Some [callback_answer (Some "Неизвестный режим."%string)]).
  { intros Hkey. subst result. rewrite (callback_mode_unknown chat data bot Hkey).
    simpl. split_and!; [by eexists | done | done]. }
  split_and!.
  - destruct (decide (key ∈ dict_keys (catalog_modes catalog))) as [Hkey|Hkey].
    + by apply Hknown.
    + by apply Hunknown.
  - intros Hkey. by apply Hknown.
  - intros Hkey. by apply Hunknown.
Qed.

(** With the two-mode file: the data "mode:assistant" and "mode:poet". *)
Lemma callback_mode_stores_known_modes_witness :
  mode (eval (get_chat_state 7)
          (bot_memory (snd (callback_mode 7 "mode:assistant"
                              (mkBot sample_world (prompts_start two_mode_file))))))
  = Some "assistant"%string /\
  bot_memory (snd (callback_mode 7 "mode:poet"
                     (mkBot sample_world (prompts_start two_mode_file))))
  = sample_world.
Proof.
  split.
  - apply (callback_mode_stores_known_modes 7 "mode:assistant"
             (mkBot sample_world (prompts_start two_mode_file))).
    apply dict_mem_keys. reflexivity.
  - apply (callback_mode_stores_known_modes 7 "mode:poet"
             (mkBot sample_world (prompts_start two_mode_file))).
    apply dict_mem_false_keys. reflexivity.
Defined.



(** * Image settings *)

Lemma get_image_settings_known chat r iw :
  _image_settings iw !! chat = Some r -> get_image_settings chat iw = (r, iw).
Proof. intros Hr. unfold get_image_settings. by rewrite Hr. Qed.

Lemma get_image_settings_lookup chat iw :
  _image_settings (snd (get_image_settings chat iw)) !! chat
  = Some (fst (get_image_settings chat iw)).
Proof.
  unfold get_image_settings.
  destruct (_image_settings iw !! chat) as [r|] eqn:Hr; simpl; [done|].
  apply lookup_insert_eq.
Qed.

Lemma fresh_object iw r :
  is_Some (objects iw !! r) -> r ≠ fresh (dom (objects iw)).
Proof.
  intros Hr%elem_of_dom ->. by apply (is_fresh (dom (objects iw))).
Qed.

Lemma get_image_settings_wf chat iw :
  image_wf iw -> image_wf (snd (get_image_settings chat iw)).
Proof.
  intros [Hdefaults Hown Hapart Hkeys]. unfold get_image_settings.
  destruct (_image_settings iw !! chat) as [r|] eqn:Hr; simpl; [done|].
  set (r := fresh (dom (objects iw))).
  assert (Hfresh : forall r', is_Some (objects iw !! r') -> r' ≠ r)
    by apply fresh_object.
  assert (Hcopy : object_content iw default_settings = DEFAULT_IMAGE_SETTINGS)
    by (unfold object_content; by rewrite Hdefaults).
  split; simpl.
  - rewrite lookup_insert_ne; [done|]. intros Heq. by apply (Hfresh default_settings).
  - intros chat' r'. destruct (decide (chat = chat')) as [<-|Hne].
    + rewrite lookup_insert_eq. intros [= <-]. split.
      * intros Heq. by apply (Hfresh default_settings).
      * rewrite lookup_insert_eq. by eexists.
    + rewrite lookup_insert_ne by done. intros Hr'.
      destruct (Hown chat' r' Hr') as [Hnot Hsome]. split; [done|].
      by rewrite lookup_insert_ne by (intros Heq; by apply (Hfresh r')).
  - intros c1 c2 r'.
    destruct (decide (chat = c1)) as [<-|Hne1], (decide (chat = c2)) as [<-|Hne2];
      rewrite ?lookup_insert_eq, ?lookup_insert_ne by done; try done.
    + intros [= <-] Hr2. destruct (Hown c2 r Hr2) as [_ Hsome].
      by destruct (Hfresh r Hsome).
    + intros Hr1 [= <-]. destruct (Hown c1 r Hr1) as [_ Hsome].
      by destruct (Hfresh r Hsome).
    + apply Hapart.
  - intros chat' r'. unfold object_content. simpl.
    destruct (decide (chat = chat')) as [<-|Hne].
    + rewrite lookup_insert_eq. intros [= <-] key Hkey.
      rewrite lookup_insert_eq. simpl. fold (object_content iw default_settings).
      rewrite Hcopy. by apply elem_of_dom.
    + rewrite lookup_insert_ne by done. intros Hr' key Hkey.
      destruct (Hown chat' r' Hr') as [_ Hsome].
      rewrite lookup_insert_ne by (intros Heq; by apply (Hfresh r')).
      by apply (Hkeys chat' r' Hr').
Qed.

Lemma set_item_wf r key value iw :
  image_wf iw -> r ≠ default_settings -> image_wf (set_item r key value iw).
Proof.
  intros [Hdefaults Hown Hapart Hkeys] Hr. split; simpl.
  - by rewrite lookup_alter_ne.
  - intros chat r' Hr'. destruct (Hown chat r' Hr') as [Hnot Hsome].
    split; [done|]. by apply lookup_alter_is_Some.
  - apply Hapart.
  - intros chat r' Hr' key' Hkey'. unfold object_content. simpl.
    pose proof (Hkeys chat r' Hr' key' Hkey') as Hsome. unfold object_content in Hsome.
    destruct (decide (r = r')) as [<-|Hne].
    + rewrite lookup_alter_eq. destruct (objects iw !! r) as [d|]; simpl in *.
      * apply lookup_insert_is_Some. destruct (decide (key = key')); [by left | by right].
      * done.
    + by rewrite lookup_alter_ne.
Qed.

Lemma image_start_wf : image_wf image_start.
Proof. split; simpl; try done. Qed.

Lemma settings_of_known chat r iw :
  _image_settings iw !! chat = Some r -> settings_of chat iw = object_content iw r.
Proof. intros Hr. unfold settings_of. by rewrite (get_image_settings_known _ _ _ Hr). Qed.

Lemma settings_of_new chat iw :
  image_wf iw -> _image_settings iw !! chat = None ->
  settings_of chat iw = DEFAULT_IMAGE_SETTINGS.
Proof.
  intros Hwf Hnew. unfold settings_of, get_image_settings. rewrite Hnew.
  unfold object_content at 1. simpl. rewrite lookup_insert_eq. simpl.
  unfold object_content. by rewrite (wf_defaults _ Hwf).
Qed.

(** Asking for a chat's settings changes no chat's settings. *)
Lemma settings_of_get chat chat' iw :
  image_wf iw ->
  settings_of chat' (snd (get_image_settings chat iw)) = settings_of chat' iw.
Proof.
  intros Hwf. pose proof (get_image_settings_wf chat iw Hwf) as Hwf'.
  unfold get_image_settings in *.
  destruct (_image_settings iw !! chat) as [r|] eqn:Hr; simpl in *; [done|].
  destruct (decide (chat = chat')) as [<-|Hne].
  - rewrite (settings_of_new chat iw Hwf Hr).
    rewrite (settings_of_known chat (fresh (dom (objects iw)))) by apply lookup_insert_eq.
    unfold object_content at 1. simpl. rewrite lookup_insert_eq. simpl.
    unfold object_content. by rewrite (wf_defaults _ Hwf).
  - destruct (_image_settings iw !! chat') as [r'|] eqn:Hr'.
    + rewrite (settings_of_known chat' r' iw Hr').
      rewrite (settings_of_known chat' r') by (simpl; by rewrite lookup_insert_ne).
      unfold object_content. simpl.
      destruct (wf_own _ Hwf chat' r' Hr') as [_ Hsome].
      by rewrite lookup_insert_ne by (intros Heq; by apply (fresh_object iw r')).
    + rewrite (settings_of_new chat' iw Hwf Hr').
      apply settings_of_new; [done|]. simpl. by rewrite lookup_insert_ne.
Qed.

Lemma settings_of_set_item chat r key value iw :
  image_wf iw -> _image_settings iw !! chat = Some r ->
  settings_of chat (set_item r key value iw) = <[key := value]> (settings_of chat iw) /\
  forall chat', chat' ≠ chat ->
    settings_of chat' (set_item r key value iw) = settings_of chat' iw.
Proof.
  intros Hwf Hr. destruct (wf_own _ Hwf chat r Hr) as [Hnot [d Hd]].
  pose proof (set_item_wf r key value iw Hwf Hnot) as Hwf'.
  split.
  - rewrite (settings_of_known chat r (set_item r key value iw)) by done.
    rewrite (settings_of_known chat r iw Hr).
    unfold object_content. simpl. by rewrite lookup_alter_eq, Hd.
  - intros chat' Hne. destruct (_image_settings iw !! chat') as [r'|] eqn:Hr'.
    + rewrite (settings_of_known chat' r' (set_item r key value iw)) by done.
      rewrite (settings_of_known chat' r' iw Hr').
      unfold object_content. simpl. rewrite lookup_alter_ne; [done|].
      intros <-. apply Hne. by apply (wf_apart _ Hwf chat' chat r).
    + by rewrite !settings_of_new.
Qed.

(** The world a saving callback leaves: the chat's dictionary, created if
    need be, with one key assigned. *)
Lemma save_image_choice_world prefix key caption chat data iw :
  snd (save_image_choice prefix key caption chat data iw) =
  set_item (fst (get_image_settings chat iw)) key (py_removeprefix data prefix)
    (snd (get_image_settings chat iw)).
Proof.
  unfold save_image_choice, format_image_settings_text.
  pose proof (get_image_settings_lookup chat iw) as Hr.
  destruct (get_image_settings chat iw) as [r iw1]. simpl in *.
  rewrite (get_image_settings_known chat r (set_item r key _ iw1)) by done.
  done.
Qed.

Lemma save_image_choice_wf prefix key caption chat data iw :
  image_wf iw -> image_wf (snd (save_image_choice prefix key caption chat data iw)).
Proof.
  intros Hwf. rewrite save_image_choice_world.
  pose proof (get_image_settings_wf chat iw Hwf) as Hwf1.
  apply set_item_wf; [done|].
  by destruct (wf_own _ Hwf1 chat _ (get_image_settings_lookup chat iw)).
Qed.

Lemma run_image_event_wf ev iw : image_wf iw -> image_wf (run_image_event ev iw).
Proof.
  intros Hwf. destruct ev as [c data|c data|c data|c data|c]; simpl;
    try by apply save_image_choice_wf.
  unfold format_image_settings_text.
  pose proof (get_image_settings_wf c iw Hwf).
  by destruct (get_image_settings c iw).
Qed.

Lemma run_image_events_wf evs iw : image_wf iw -> image_wf (run_image_events evs iw).
Proof.
  revert iw. induction evs as [|ev evs IH]; intros iw Hwf; simpl; [done|].
  by apply IH, run_image_event_wf.
Qed.

Lemma format_image_settings_text_wf chat iw :
  image_wf iw -> is_Some (fst (format_image_settings_text chat iw)).
Proof.
  intros Hwf. unfold format_image_settings_text.
  pose proof (get_image_settings_wf chat iw Hwf) as Hwf1.
  pose proof (get_image_settings_lookup chat iw) as Hr.
  destruct (get_image_settings chat iw) as [r iw1]. simpl in *.
  pose proof (wf_keys _ Hwf1 chat r Hr) as Hkeys.
  destruct (Hkeys "quality"%string) as [q ->]; [by vm_compute|].
  destruct (Hkeys "size"%string) as [s ->]; [by vm_compute|].
  destruct (Hkeys "background"%string) as [b ->]; [by vm_compute|].
  destruct (Hkeys "output_format"%string) as [f ->]; [by vm_compute|].
  by eexists.
Qed.

Lemma save_image_choice_settings prefix key caption chat data iw :
  image_wf iw ->
  let iw' := snd (save_image_choice prefix key caption chat data iw) in
  settings_of chat iw' = <[key := py_removeprefix data prefix]> (settings_of chat iw) /\
  forall chat', chat' ≠ chat -> settings_of chat' iw' = settings_of chat' iw.
Proof.
  intros Hwf iw'. subst iw'. rewrite save_image_choice_world.
  pose proof (get_image_settings_wf chat iw Hwf) as Hwf1.
  pose proof (get_image_settings_lookup chat iw) as Hr.
  destruct (settings_of_set_item chat _ key (py_removeprefix data prefix) _ Hwf1 Hr)
    as [Hchat Hother].
  split.
  - by rewrite Hchat, settings_of_get.
  - intros chat' Hne. by rewrite Hother, settings_of_get.
Qed.

Lemma save_image_choice_answers prefix key caption chat data iw :
  image_wf iw -> is_Some (fst (save_image_choice prefix key caption chat data iw)).
Proof.
  intros Hwf. unfold save_image_choice.
  pose proof (get_image_settings_wf chat iw Hwf) as Hwf1.
  pose proof (get_image_settings_lookup chat iw) as Hr.
  destruct (get_image_settings chat iw) as [r iw1]. simpl in *.
  assert (Hwf2 : image_wf (set_item r key (py_removeprefix data prefix) iw1)).
  { apply set_item_wf; [done|]. by destruct (wf_own _ Hwf1 chat r Hr). }
  pose proof (format_image_settings_text_wf chat _ Hwf2) as [text Htext].
  destruct (format_image_settings_text chat _) as [formatted iw3].
  simpl in *. rewrite Htext. by eexists.
Qed.

Lemma run_image_event_other ev chat iw :
  image_wf iw -> image_event_chat ev ≠ chat ->
  settings_of chat (run_image_event ev iw) = settings_of chat iw.
Proof.
  intros Hwf Hne.
  destruct ev as [c data|c data|c data|c data|c]; simpl in *;
    try (by apply save_image_choice_settings).
  unfold format_image_settings_text.
  pose proof (settings_of_get c chat iw Hwf) as Hget.
  by destruct (get_image_settings c iw).
Qed.

(** X19. In every state the image handlers can reach from the start of the
    process, [format_image_settings_text] finds all four keys it indexes, for
    any chat: neither it nor the four saving callbacks raise a [KeyError]. *)
Theorem image_settings_text_never_fails
    (evs : list ImageEvent) (chat : Z) (data : string) :
  let iw := run_image_events evs image_start in
  is_Some (fst (format_image_settings_text chat iw)) /\
  is_Some (fst (callback_image_quality chat data iw)) /\
  is_Some (fst (callback_image_size chat data iw)) /\
  is_Some (fst (callback_image_background chat data iw)) /\
  is_Some (fst (callback_image_format chat data iw)).
Proof.
  intros iw.
  assert (Hwf : image_wf iw) by apply run_image_events_wf, image_start_wf.
  split_and!; [by apply format_image_settings_text_wf | by apply save_image_choice_answers..].
Qed.

(** X20. The image settings of a chat are its own: in every reachable state,
    events of other chats leave them as they are, and a chat none of the
    events was about has the original defaults, whatever the other chats
    chose. *)
Theorem image_settings_per_chat (before evs : list ImageEvent) (chat : Z) :
  Forall (fun ev => image_event_chat ev ≠ chat) evs ->
  let iw := run_image_events before image_start in
  settings_of chat (run_image_events evs iw) = settings_of chat iw /\
  settings_of chat (run_image_events evs image_start) = DEFAULT_IMAGE_SETTINGS.
Proof.
  intros Hevs iw.
  assert (Hkeep : forall iw0, image_wf iw0 ->
            settings_of chat (run_image_events evs iw0) = settings_of chat iw0).
  { induction Hevs as [|ev evs Hev Hevs IH]; intros iw0 Hwf; simpl; [done|].
    rewrite IH by (by apply run_image_event_wf). by apply run_image_event_other. }
  split.
  - apply Hkeep. apply run_image_events_wf, image_start_wf.
  - rewrite Hkeep by apply image_start_wf.
    by apply settings_of_new; [apply image_start_wf|].
Qed.

(** Chat 2 after chat 1 chose the quality "high". *)
Lemma image_settings_per_chat_witness :
  settings_of 2 (run_image_events [PressQuality 1 "img_q:high"] image_start)
  = DEFAULT_IMAGE_SETTINGS.
Proof.
  apply (image_settings_per_chat [] [PressQuality 1 "img_q:high"] 2).
  repeat constructor. simpl. lia.
Defined.

(** X21. In every reachable state each saving callback assigns the callback
    data without its prefix, as received, to its one key of the chat's
    settings and changes no other key. *)
Theorem image_callbacks_assign_one_key
    (evs : list ImageEvent) (chat : Z) (data : string) :
  let iw := run_image_events evs image_start in
  let saved handler := settings_of chat (snd (handler chat data iw)) in
  saved callback_image_quality
    = <["quality"%string := py_removeprefix data "img_q:"]> (settings_of chat iw) /\
  saved callback_image_size
    = <["size"%string := py_removeprefix data "img_s:"]> (settings_of chat iw) /\
  saved callback_image_background
    = <["background"%string := py_removeprefix data "img_bg:"]> (settings_of chat iw) /\
  saved callback_image_format
    = <["output_format"%string := py_removeprefix data "img_fmt:"]> (settings_of chat iw).
Proof.
  intros iw saved.
  assert (Hwf : image_wf iw) by apply run_image_events_wf, image_start_wf.
  split_and!; by apply save_image_choice_settings.
Qed.

(** X22. Every button of [build_size_keyboard] agrees with
    [format_image_settings_text]: once the button is pressed, in any reachable
    state, the size stored for the chat is one [size_labels] knows, and its
    label is the caption of the button. *)
Theorem size_buttons_show_their_caption
    (evs : list ImageEvent) (chat : Z)
    (row : list InlineKeyboardButton) (button : InlineKeyboardButton) :
  row ∈ build_size_keyboard -> button ∈ row ->
  let iw := run_image_events evs image_start in
  exists size,
    settings_of chat (snd (callback_image_size chat (callback_data button) iw))
      !! "size"%string = Some size /\
    size_labels !! size = Some (button_text button).
Proof.
  intros Hrow Hbutton iw.
  assert (Hwf : image_wf iw) by apply run_image_events_wf, image_start_wf.
  destruct (save_image_choice_settings "img_s:" "size" "Размер" chat
              (callback_data button) iw Hwf) as [Hsaved _].
  unfold callback_image_size. rewrite Hsaved, lookup_insert_eq.
  eexists. split; [done|].
  unfold build_size_keyboard in Hrow.
  repeat (apply elem_of_cons in Hrow as [->|Hrow];
          [apply list_elem_of_singleton in Hbutton as ->; reflexivity|]).
  by apply elem_of_nil in Hrow.
Qed.

(** The button "Landscape 1536×1024" pressed in chat 1 at the start. *)
Lemma size_buttons_show_their_caption_witness :
  exists size,
    settings_of 1
      (snd (callback_image_size 1 "img_s:1536x1024" (run_image_events [] image_start)))
      !! "size"%string = Some size /\
    size_labels !! size = Some "Landscape 1536×1024"%string.
Proof.
  apply (size_buttons_show_their_caption [] 1
           [mkInlineKeyboardButton "Landscape 1536×1024" "img_s:1536x1024"]
           (mkInlineKeyboardButton "Landscape 1536×1024" "img_s:1536x1024")).
  - unfold build_size_keyboard. do 2 (apply elem_of_cons; right).
    apply elem_of_cons. by left.
  - apply elem_of_cons. by left.
Defined.

(** * Where [split_message] cuts *)

(** The last occurrence found by [py_rfind]: nothing after it is [c]. *)
Lemma py_rfind_last s c :
  (py_rfind s c = -1 /\ c ∉ s) \/
  (exists before after,
     s = before ++ c :: after /\ py_rfind s c = py_len before /\ c ∉ after).
Proof.
  induction s as [|x s IH]; simpl.
  - left. split; [done | apply not_elem_of_nil].
  - rewrite Z.geb_leb.
    destruct IH as [[Hr Hnot]|(before & after & Hs & Hr & Hnot)].
    + rewrite Hr. simpl. destruct (Ascii.eqb x c) eqn:Hx.
      * apply Ascii.eqb_eq in Hx as ->. right. by exists [], s.
      * apply Ascii.eqb_neq in Hx. left. split; [done|].
        apply not_elem_of_cons. split; [congruence | done].
    + right. exists (x :: before), after. rewrite Hs at 1. split; [done|].
      pose proof (py_len_nonneg before).
      destruct (Z.leb_spec 0 (py_rfind s c)); [|lia].
      rewrite Hr. unfold py_len. simpl. split; [lia | done].
Qed.

Lemma py_slice_to_nonneg {A} (l : list A) k :
  0 <= k -> py_slice_to l k = take (Z.to_nat k) l.
Proof.
  intros Hk. unfold py_slice_to, py_bound. by destruct (Z.ltb_spec k 0); [lia|].
Qed.

Lemma py_slice_from_nonneg {A} (l : list A) k :
  0 <= k -> py_slice_from l k = drop (Z.to_nat k) l.
Proof.
  intros Hk. unfold py_slice_from, py_bound. by destruct (Z.ltb_spec k 0); [lia|].
Qed.

(** One iteration that cuts, read on the text: the piece, the newlines
    dropped after it and what is left, with the place of the cut. *)
Lemma cut_step max_length rest :
  1 <= max_length -> max_length < py_len rest ->
  exists piece gap,
    piece = py_slice_to rest (split_cut max_length rest) /\
    rest = piece ++ gap ++ next_rest max_length rest /\
    Forall (fun c => c = newline) gap /\
    ~ starts_with_newline (next_rest max_length rest) /\
    ((py_len piece = max_length /\
      forall i : nat, max_length / 2 < Z.of_nat i -> piece !! i ≠ Some newline) \/
     (exists line,
        piece = line ++ [newline] /\
        max_length / 2 < py_len line /\ py_len line < max_length /\
        newline ∉ take (Z.to_nat (max_length - py_len line - 1))
                    (gap ++ next_rest max_length rest))).
Proof.
  intros Hmax Hlen.
  pose proof (split_cut_range max_length rest Hmax) as Hcut.
  destruct (py_lstrip_split (py_slice_from rest (split_cut max_length rest)) newline)
    as (gap & Hgap & Hnl).
  fold (next_rest max_length rest) in Hgap.
  exists (py_slice_to rest (split_cut max_length rest)), gap.
  assert (Hrest : rest = py_slice_to rest (split_cut max_length rest)
                         ++ gap ++ next_rest max_length rest).
  { rewrite <- Hgap. symmetry. apply py_slice_take_drop. }
  split_and!; [done | done | done | apply py_lstrip_head |].
  assert (Hwindow : py_len (py_slice_to rest max_length) = max_length).
  { rewrite py_len_slice_to by lia. lia. }
  assert (Hhalf : 0 <= max_length / 2) by (apply Z.div_pos; lia).
  unfold split_cut in *. rewrite Z.gtb_ltb in *.
  destruct (py_rfind_last (py_slice_to rest max_length) newline)
    as [[Hr Hnot]|(before & after & Hw & Hr & Hnot)].
  - rewrite Hr in *. destruct (Z.ltb_spec (max_length / 2) (-1)); [lia|].
    left. split; [done|]. intros i _ Hi. apply Hnot.
    by apply list_elem_of_lookup_2 in Hi.
  - rewrite Hr in *.
    assert (Hlens : py_len before + 1 + py_len after = max_length).
    { rewrite <- Hwindow, Hw, py_len_app. unfold py_len. simpl. lia. }
    destruct (Z.ltb_spec (max_length / 2) (py_len before)) as [Hpast|Hearly].
    + right. exists before.
      assert (Hpiece : py_slice_to rest (py_len before + 1) = before ++ [newline]).
      { rewrite py_slice_to_nonneg by (unfold py_len; lia).
        rewrite <- (py_slice_take_drop rest max_length) at 1. rewrite Hw.
        replace (Z.to_nat (py_len before + 1)) with (length (before ++ [newline]))
          by (rewrite length_app; unfold py_len; simpl; lia).
        replace (before ++ newline :: after) with ((before ++ [newline]) ++ after)
          by (by rewrite <- app_assoc).
        rewrite <- app_assoc. apply take_app_length. }
      split_and!; [done | done | unfold py_len in *; lia |].
      assert (Hafter : gap ++ next_rest max_length rest
                       = after ++ py_slice_from rest max_length).
      { apply (app_inv_head (before ++ [newline])).
        rewrite <- Hpiece at 1. rewrite Hrest at 3. rewrite <- Hrest.
        rewrite <- (py_slice_take_drop rest max_length) at 1. rewrite Hw.
        by rewrite <- !app_assoc. }
      rewrite Hafter.
      replace (Z.to_nat (max_length - py_len before - 1)) with (length after)
        by (unfold py_len in *; lia).
      by rewrite take_app_length.
    + left. split; [done|]. intros i Hi. rewrite Hw.
      assert (length before < i)%nat by (unfold py_len in *; lia).
      rewrite lookup_app_r by lia.
      destruct (i - length before)%nat as [|j] eqn:Hj; [lia|]. simpl.
      intros Hin. apply Hnot. by apply list_elem_of_lookup_2 in Hin.
Qed.

Lemma loop_run_cut_at_lines max_length rest pieces :
  1 <= max_length -> loop_run max_length rest pieces ->
  cut_at_lines max_length rest pieces.
Proof.
  intros Hmax Hrun. induction Hrun as [|rest Hne Hle|rest pieces Hne Hgt Hrun IH].
  - constructor.
  - by constructor.
  - destruct (cut_step max_length rest Hmax Hgt)
      as (piece & gap & Hpiece & Hrest & Hgap & Hhead & Hplace).
    rewrite <- Hpiece. rewrite Hrest at 1.
    destruct Hplace as [[Hfull Hnone]|(line & Hline & Hpast & Hshort & Hlast)].
    + apply cut_window; try done. by rewrite <- Hrest.
    + rewrite Hline in *. apply cut_after_line; try done. by rewrite <- Hrest.
Qed.

Lemma py_len_concat_bound (max_length : Z) (pieces : list (list ascii)) :
  Forall (fun piece => py_len piece <= max_length) pieces ->
  py_len (concat pieces) <= Z.of_nat (length pieces) * max_length.
Proof.
  induction 1 as [|piece pieces Hpiece Hpieces IH]; simpl.
  - unfold py_len. simpl. lia.
  - rewrite py_len_app. lia.
Qed.

(** C3, amended. [split_message] returns [[]] for the empty text and [[text]]
    for a non-empty text no longer than the limit, whatever the limit. For
    every text and every limit of at least 1 it returns ordered pieces, each
    non-empty and no longer than the limit, that make up the text in order
    once the newlines dropped after a cut are put back. The cuts are those of
    [cut_at_lines]: a piece is a full window of [max_length] characters unless
    the window has a newline past its midpoint, and then it ends right after
    the last newline of the window. So every piece but the last is longer
    than half the limit, which bounds their number, and for a text without
    newlines the pieces are the text cut every [max_length] characters, the
    fewest pieces possible, [ceil(len(text) / max_length)]. Only a cut moved
    back to a newline can make the pieces more than the fewest. *)
Theorem split_message_pieces_within_limit
    (text : list ascii) (max_length : Z) (fuel : nat) :
  (length text < fuel)%nat ->
  (text = [] -> split_message fuel text max_length = Some []) /\
  (text ≠ [] -> py_len text <= max_length ->
   split_message fuel text max_length = Some [text]) /\
  (1 <= max_length ->
   exists pieces,
     split_message fuel text max_length = Some pieces /\
     within max_length pieces /\ covers text pieces /\
     cut_at_lines max_length text pieces /\
     Forall (fun piece => max_length / 2 < py_len piece) (removelast pieces) /\
     (pieces ≠ [] ->
      (Z.of_nat (length pieces) - 1) * (max_length / 2 + 1) < py_len text) /\
     (newline ∉ text ->
      concat pieces = text /\
      Forall (fun piece => py_len piece = max_length) (removelast pieces) /\
      Z.of_nat (length pieces) = (py_len text + max_length - 1) / max_length /\
      forall others,
        concat others = text ->
        Forall (fun piece => py_len piece <= max_length) others ->
        (length pieces <= length others)%nat)).
Proof.
  intros Hfuel. split_and!.
  - intros ->. unfold split_message.
    destruct (py_len [] <=? max_length); [done|].
    destruct fuel; [simpl in Hfuel; lia | done].
  - intros Hne Hle. unfold split_message.
    destruct (Z.leb_spec (py_len text) max_length); [|lia].
    by destruct text.
  - intros Hmax.
    destruct (split_message_returns text max_length fuel Hmax Hfuel)
      as (pieces & Hrun & Hwithin & Hcovers).
    destruct (split_message_run max_length fuel text Hmax Hfuel)
      as (pieces' & Hrun' & Hloop).
    assert (pieces' = pieces) as -> by congruence.
    destruct (loop_run_more_than_half max_length text pieces Hmax Hloop)
      as [Hhalf Hcount].
    exists pieces. split_and!; try done.
    + by apply loop_run_cut_at_lines.
    + intros Hnl.
      destruct (loop_run_no_newline max_length text pieces Hmax Hloop Hnl)
        as (Hconcat & Hceil & Hfull).
      split_and!; try done.
      intros others Hothers Hfit.
      pose proof (py_len_concat_bound max_length others Hfit) as Hbound.
      rewrite Hothers in Hbound.
      assert (Z.of_nat (length pieces) < Z.of_nat (length others) + 1); [|lia].
      rewrite Hceil. apply Z.div_lt_upper_bound; lia.
Qed.

(** At ["abcd\nefghijk"] with the limit 6, where a cut is moved to the
    newline, and at ["short"] and [""] with the limit 4096. *)
Lemma split_message_pieces_within_limit_witness :
  (exists pieces,
     split_message 13 two_lines 6 = Some pieces /\
     within 6 pieces /\ covers two_lines pieces /\ cut_at_lines 6 two_lines pieces /\
     Forall (fun piece => 6 / 2 < py_len piece) (removelast pieces)) /\
  split_message 6 (str "short") TELEGRAM_MESSAGE_LIMIT = Some [str "short"] /\
  split_message 1 (str EmptyString) TELEGRAM_MESSAGE_LIMIT = Some [].
Proof.
  assert (Hfuel : (length two_lines < 13)%nat) by (simpl; lia).
  assert (Hmax : 1 <= 6) by lia.
  destruct (split_message_pieces_within_limit two_lines 6 13 Hfuel) as (_ & _ & Hcut).
  destruct (Hcut Hmax) as (pieces & Hrun & Hwithin & Hcovers & Hlines & Hhalf & _).
  split_and!.
  - exists pieces. by split_and!.
  - apply (split_message_pieces_within_limit (str "short") TELEGRAM_MESSAGE_LIMIT 6).
    + simpl. lia.
    + discriminate.
    + by vm_compute.
  - apply (split_message_pieces_within_limit (str EmptyString) TELEGRAM_MESSAGE_LIMIT 1).
    + simpl. lia.
    + reflexivity.
Defined.

Example split_message_two_lines :
  split_message 13 two_lines 6 = Some [str "abcd" ++ [newline]; str "efghij"; str "k"].
Proof. reflexivity. Qed.

Example split_message_ten_letters :
  split_message 11 (str "abcdefghij") 4 = Some [str "abcd"; str "efgh"; str "ij"].
Proof. reflexivity. Qed.

(** * [get_chat_state] and the file it reads *)

(** On the files of [World] the loaders of the model are [_load_json]. *)
Lemma _load_json_memory_models p w :
  models p w ->
  _load_json (memory_object ∅) (process_file p)
  = Some (memory_object (_load_json_memory (memory_json w))).
Proof. by destruct 1. Qed.

Lemma _load_json_prompts_models file o :
  models_prompts file o ->
  _load_json (prompts_object empty_data) file = Some (prompts_object (_load_json_prompts o)) /\
  load_prompts_or_raise file = Some (load_prompts o).
Proof. by destruct 1. Qed.

Lemma _get_memory_data_models p w :
  models p w ->
  exists p',
    _get_memory_data_or_raise p = returns (memory_object (memory_data w)) p' /\
    models p' (mkWorld (memory_data w) (memory_json w)) /\
    process_file p' = process_file p.
Proof.
  intros Hmodels. unfold _get_memory_data_or_raise.
  rewrite (_load_json_memory_models p w Hmodels), memory_data_unfold.
  destruct Hmodels as [c|c|c d]; simpl;
    destruct (dict_is_empty c); eexists; split_and!; try done; constructor.
Qed.

(** On the processes [World] stands for, [get_chat_state] raises nothing and
    does what the model says. *)
Lemma get_chat_state_models chat p w :
  models p w ->
  exists p',
    get_chat_state_or_raise chat p = returns (eval (get_chat_state chat) w) p' /\
    models p' (exec (get_chat_state chat) w).
Proof.
  intros Hmodels. unfold get_chat_state_or_raise, eval, exec.
  destruct (_get_memory_data_models p w Hmodels) as (p1 & -> & Hp1 & Hfile).
  rewrite get_chat_state_run.
  destruct (memory_data w !! _chat_key chat) as [st|] eqn:Hst; simpl.
  - by exists p1.
  - eexists. split; [done|].
    inversion Hp1 as [c Hp Hw|c Hp Hw|c d Hp Hw]; subst; simpl;
      rewrite <- ?Hw; constructor.
Qed.



